(** * Christmas light patterns on a WS2811 LED strip

    A shallow embedding of [christmas_tree.py]: the brightness scaling of a
    colour, the light controller with its pixel setter and flush, and the
    pattern methods, followed by the properties proved about them.

    Python values are modelled as the interpreter has them: integers are
    unbounded ([Z]), floats are IEEE 754 binary64 numbers (the executable
    specification [SpecFloat] of the Standard Library, round to nearest even),
    exceptions are an error result.  The LED strip of the [rpi_ws281x] library
    is the mutable state threaded through the controller's methods. *)

From Stdlib Require Import ZArith Lia Bool.
From Stdlib Require Import Floats.SpecFloat.
From stdpp Require Import base list.

Open Scope Z_scope.

(** ** Python exceptions and fallible expressions *)

Inductive exn := ValueError | OverflowError | ZeroDivisionError.

Inductive result (A : Type) :=
| Ok (a : A)
| Raise (e : exn).
Arguments Ok {A} a.
Arguments Raise {A} e.

#[global] Instance result_ret : MRet result := fun _ a => Ok a.
#[global] Instance result_bind : MBind result := fun _ _ f r =>
  match r with
  | Ok a => f a
  | Raise e => Raise e
  end.

(** ** Python floats: IEEE 754 binary64 *)

Module PyFloat.

Definition prec : Z := 53.
Definition emax : Z := 1024.

Definition float := spec_float.

(** [float(i)], also the implicit conversion of an [int] operand in mixed
    arithmetic: correctly rounded, [OverflowError] beyond the float range. *)
Definition of_int (i : Z) : result float :=
  match binary_normalize prec emax i 0 false with
  | S754_infinity _ => Raise OverflowError
  | x => Ok x
  end.

(** [x * y] on floats never raises. *)
Definition mul (x y : float) : float := SFmul prec emax x y.

(** [x / y] on floats raises on a zero divisor. *)
Definition div (x y : float) : result float :=
  match y with
  | S754_zero _ => Raise ZeroDivisionError
  | _ => Ok (SFdiv prec emax x y)
  end.

(** [i * y] with an [int] on the left. *)
Definition int_mul (i : Z) (y : float) : result float :=
  x ← of_int i; mret (mul x y).

(** [i / y] with an [int] on the left. *)
Definition int_div (i : Z) (y : float) : result float :=
  x ← of_int i; div x y.

(** [i / j] on two ints (true division). *)
Definition int_truediv (i j : Z) : result float :=
  y ← of_int j; int_div i y.

(** [int(x)]: truncation toward zero; infinities and NaN raise. *)
Definition to_int (x : float) : result Z :=
  match x with
  | S754_zero _ => Ok 0
  | S754_finite s m e => Ok (cond_Zopp s (Z.shiftl (Z.pos m) e))
  | S754_infinity _ => Raise OverflowError
  | S754_nan => Raise ValueError
  end.

(** The least integer that is not below [m * 2 ^ e]. *)
Definition ceil_mag (m : positive) (e : Z) : Z :=
  if 0 <=? e then Z.pos m * 2 ^ e
  else (Z.pos m + 2 ^ (- e) - 1) / 2 ^ (- e).

(** [math.floor(x)], used to state what the specification asks for. *)
Definition floor (x : float) : result Z :=
  match x with
  | S754_zero _ => Ok 0
  | S754_finite false m e => Ok (Z.shiftl (Z.pos m) e)
  | S754_finite true m e => Ok (- ceil_mag m e)
  | S754_infinity _ => Raise OverflowError
  | S754_nan => Raise ValueError
  end.

(** A float rounded to a whole number away from zero: C's [ceil] of a number
    that is not negative, [floor] of a negative one.  The result of either is
    a whole double, given here as the integer it is; an infinity or NaN is
    not one. *)
Definition round_away (x : float) : result Z :=
  match x with
  | S754_zero _ => Ok 0
  | S754_finite s m e => Ok (cond_Zopp s (ceil_mag m e))
  | S754_infinity _ => Raise OverflowError
  | S754_nan => Raise ValueError
  end.

(** The literals of the source. *)
Definition lit_1_0 : float := S754_finite false 4503599627370496 (-52).
Definition lit_10_0 : float := S754_finite false 5629499534213120 (-49).
Definition lit_0_4 : float := S754_finite false 7205759403792794 (-54).
Definition lit_1000_0 : float := S754_finite false 8796093022208000 (-43).
Definition lit_1e9 : float := S754_finite false 8388608000000000 (-23).

(** Order on floats: [x <= y] as Python evaluates it. *)
Definition leb (x y : float) : bool := SFleb x y.

Definition valid (x : float) : bool := valid_binary prec emax x.

End PyFloat.

(** ** Colours *)

(** [Color(red, green, blue)] of [rpi_ws281x] (white component left at 0):
    the channels packed into one integer, 8 bits apart. *)
Definition Color (red green blue : Z) : Z :=
  Z.lor (Z.lor (Z.lor (Z.shiftl 0 24) (Z.shiftl red 16)) (Z.shiftl green 8)) blue.

Inductive Colors :=
| NONE
| WARM_WHITE
| CRYSTAL_BLUE
| CRYSTAL_RED
| CRYSTAL_GREEN
| PURE_WHITE.

Definition value (c : Colors) : Z :=
  match c with
  | NONE => Color 0 0 0
  | WARM_WHITE => Color 255 147 41
  | CRYSTAL_BLUE => Color 0 67 255
  | CRYSTAL_RED => Color 255 0 0
  | CRYSTAL_GREEN => Color 0 255 0
  | PURE_WHITE => Color 255 255 255
  end.

Definition _DEMO_COLORS : list Colors :=
  [CRYSTAL_BLUE; CRYSTAL_RED; CRYSTAL_GREEN; PURE_WHITE].

(** The channels of a packed colour. *)
Definition red_of (v : Z) : Z := Z.land (Z.shiftr v 16) 255.
Definition green_of (v : Z) : Z := Z.land (Z.shiftr v 8) 255.
Definition blue_of (v : Z) : Z := Z.land v 255.

(** One channel scaled: [int(channel * brightness)]. *)
Definition scale_channel (channel : Z) (brightness : PyFloat.float) : result Z :=
  x ← PyFloat.int_mul channel brightness; PyFloat.to_int x.

Definition alter_brightness (color : Colors) (brightness : PyFloat.float) : result Z :=
  r ← scale_channel (red_of (value color)) brightness;
  g ← scale_channel (green_of (value color)) brightness;
  b ← scale_channel (blue_of (value color)) brightness;
  mret (Color r g b).

(** ** Python iteration: [range] and [enumerate] *)

(** [range(start, stop, step)] as the list it iterates over.  The source only
    uses the steps 1, 2, 3 and -1; a zero step (a [ValueError] in Python) is
    given the empty list. *)
Definition range (start stop step : Z) : list Z :=
  let len :=
    if 0 <? step then
      if start <? stop then (stop - start - 1) / step + 1 else 0
    else if step <? 0 then
      if stop <? start then (start - stop - 1) / (- step) + 1 else 0
    else 0 in
  (λ i : nat, start + Z.of_nat i * step) <$> seq 0 (Z.to_nat len).

Fixpoint enumerate_from {A} (i : Z) (xs : list A) : list (Z * A) :=
  match xs with
  | [] => []
  | x :: xs' => (i, x) :: enumerate_from (i + 1) xs'
  end.

Definition enumerate {A} (xs : list A) : list (Z * A) := enumerate_from 0 xs.

(** ** The LED strip and the controller state *)

(** Modelled from the spec: the [PixelStrip] of the [rpi_ws281x] hardware
    library, which is not part of the repository.  It is a fixed-length
    sequence of colour slots; [setPixelColor] stores a colour in a slot and
    does nothing for an index outside the strip; [show] pushes the buffer to
    the LEDs, which is recorded as one more frame shown. *)
Record PixelStrip := {
  leds : list Z;
  shown : list (list Z)
}.

Definition numPixels (strip : PixelStrip) : Z := Z.of_nat (length (leds strip)).

(** A store into slot [n] of a buffer; no effect outside the buffer. *)
Definition write (n color : Z) (buf : list Z) : list Z :=
  if decide (0 <= n < Z.of_nat (length buf))
  then <[Z.to_nat n := color]> buf
  else buf.

Definition setPixelColor (n color : Z) (strip : PixelStrip) : PixelStrip :=
  {| leds := write n color (leds strip); shown := shown strip |}.

Definition show (strip : PixelStrip) : PixelStrip :=
  {| leds := leds strip; shown := shown strip ++ [leds strip] |}.

(** What the program does to the outside world, in order: the calls on the
    strip and the blocking delays. *)
Inductive event :=
| EvBegin
| EvSetPixelColor (n : Z) (color : Z)
| EvShow
| EvSleep (secs : PyFloat.float).

(** The controller object together with the trace of its effects. *)
Record LightController := {
  _strip : PixelStrip;
  _num_pixels : Z;
  trace : list event
}.

(** The effect of one call on the controller state. *)
Definition step_state (ev : event) (self : LightController) : LightController :=
  {| _strip :=
       match ev with
       | EvSetPixelColor n color => setPixelColor n color (_strip self)
       | EvShow => show (_strip self)
       | _ => _strip self
       end;
     _num_pixels := _num_pixels self;
     trace := trace self ++ [ev] |}.

(** The controller's methods: state passing with exceptions.  An exception
    leaves the state as it was when it was raised. *)
Definition M (A : Type) : Type := LightController → result A * LightController.

#[global] Instance M_ret : MRet M := fun _ a self => (Ok a, self).
#[global] Instance M_bind : MBind M := fun _ _ f m self =>
  match m self with
  | (Ok a, self') => f a self'
  | (Raise e, self') => (Raise e, self')
  end.

Definition lift {A} (r : result A) : M A := fun self => (r, self).

Definition perform (ev : event) : M () := fun self => (Ok (), step_state ev self).

Definition num_pixels : M Z := fun self => (Ok (_num_pixels self), self).

(** The argument check of [time.sleep(secs)] in CPython 3: NaN is a
    [ValueError]; otherwise the delay is converted to nanoseconds, the
    product [secs * 1e9] taken in double precision and rounded to a whole
    number away from zero; a number of nanoseconds that does not fit a signed
    64-bit integer is an [OverflowError], and a negative one a
    [ValueError]. *)
Definition sleep_error (secs : PyFloat.float) : option exn :=
  match secs with
  | S754_nan => Some ValueError
  | _ =>
      match PyFloat.round_away (PyFloat.mul secs PyFloat.lit_1e9) with
      | Ok ns =>
          if (- 2 ^ 63 <=? ns) && (ns <? 2 ^ 63)
          then if ns <? 0 then Some ValueError else None
          else Some OverflowError
      | Raise _ => Some OverflowError
      end
  end.

Definition time_sleep (secs : PyFloat.float) : M () :=
  match sleep_error secs with
  | Some e => lift (Raise e)
  | None => perform (EvSleep secs)
  end.

(** [for x in xs: body(x)] *)
Fixpoint for_each {A} (xs : list A) (body : A → M ()) : M () :=
  match xs with
  | [] => mret ()
  | x :: xs' => body x ;; for_each xs' body
  end.

(** [LightController.__init__] *)
Definition LightController_init (strip : PixelStrip) : LightController :=
  step_state EvBegin
    {| _strip := strip; _num_pixels := numPixels strip; trace := [] |}.

Definition _set_pixel_color (index : Z) (color : Colors)
    (brightness : PyFloat.float) : M () :=
  c ← lift (alter_brightness color brightness);
  perform (EvSetPixelColor index c).

Definition _show_with_delay (wait_ms : Z) : M () :=
  perform EvShow ;;
  secs ← lift (PyFloat.int_div wait_ms PyFloat.lit_1000_0);
  time_sleep secs.

(** *** draw_and_erase *)

(** The inner loops of [draw_and_erase] for one head position [led_idx]. *)
Definition draw_and_erase_step (color : Colors) (wait_ms led_idx : Z) : M () :=
  let lower_bound := Z.max (led_idx - 10) 0 in
  for_each (enumerate (range led_idx lower_bound (-1)))
    (λ '(bright_idx, i),
       brightness ← lift (PyFloat.int_div (10 - bright_idx) PyFloat.lit_10_0);
       _set_pixel_color i color brightness) ;;
  (if 0 <? lower_bound
   then _set_pixel_color lower_bound NONE PyFloat.lit_1_0
   else mret ()) ;;
  _show_with_delay wait_ms.

Definition draw_and_erase (draw_color eraser : Colors) (wait_ms : Z) : M () :=
  n ← num_pixels;
  for_each (enumerate [range 0 n 1; range n 0 (-1)])
    (λ '(range_idx, pixel_range),
       let color := if decide (range_idx ≠ 0) then draw_color else eraser in
       for_each pixel_range (draw_and_erase_step color wait_ms)).

(** *** christmas_colors *)

Definition christmas_colors (wait_ms : Z) : M () :=
  n ← num_pixels;
  for_each (range 0 n 3)
    (λ i,
       _set_pixel_color i PURE_WHITE PyFloat.lit_0_4 ;;
       _set_pixel_color (i + 1) CRYSTAL_RED PyFloat.lit_0_4 ;;
       _set_pixel_color (i + 2) CRYSTAL_GREEN PyFloat.lit_0_4) ;;
  _show_with_delay wait_ms ;;
  _show_with_delay wait_ms.

(** *** pulse *)

(** One frame of [pulse]: every pixel at [brightness / 10], then a flush. *)
Definition pulse_frame (color : Colors) (wait_ms brightness : Z) : M () :=
  n ← num_pixels;
  for_each (range 0 n 1)
    (λ i,
       b ← lift (PyFloat.int_truediv brightness 10);
       _set_pixel_color i color b) ;;
  _show_with_delay wait_ms.

Definition pulse (color : Colors) (wait_ms : Z) : M () :=
  for_each (range 1 10 1) (pulse_frame color wait_ms) ;;
  for_each (range 10 1 (-1)) (pulse_frame color wait_ms).

Definition pulse_between (colors : list Colors) (wait_ms : Z) : M () :=
  for_each colors (λ color, pulse color wait_ms).

(** *** vapor_trail and candy_cane *)

(** The loop body of [vapor_trail] for one head position [led_idx]. *)
Definition vapor_trail_step (color : Colors) (trail : Z) (trail_color : Colors)
    (wait_ms led_idx : Z) : M () :=
  n ← num_pixels;
  let upper_bound := led_idx + trail in
  for_each (enumerate (range led_idx upper_bound 1))
    (λ '(offset, trail_idx),
       t ← lift (PyFloat.of_int trail);
       brightness ← lift (PyFloat.int_div offset t);
       _set_pixel_color ((led_idx + offset) `mod` n) color brightness) ;;
  (if 0 <=? led_idx
   then _set_pixel_color led_idx trail_color PyFloat.lit_1_0
   else mret ()) ;;
  _show_with_delay wait_ms.

Definition vapor_trail (color : Colors) (trail : Z) (trail_color : Colors)
    (wait_ms : Z) : M () :=
  n ← num_pixels;
  for_each (range 0 n 1) (vapor_trail_step color trail trail_color wait_ms).

Definition candy_cane (wait_ms : Z) : M () :=
  n ← num_pixels;
  for_each (range 0 n 1) (λ i, _set_pixel_color i PURE_WHITE PyFloat.lit_1_0) ;;
  _show_with_delay wait_ms ;;
  vapor_trail CRYSTAL_RED 10 PURE_WHITE wait_ms.

(** *** alternating_colors and single_color *)

Definition alternating_colors (first second : Colors) (wait_ms : Z) : M () :=
  n ← num_pixels;
  for_each (range 0 n 2)
    (λ i,
       _set_pixel_color i first PyFloat.lit_1_0 ;;
       _set_pixel_color (i + 1) second PyFloat.lit_1_0) ;;
  _show_with_delay wait_ms.

Definition single_color (color : Colors) (wait_ms : Z) : M () :=
  n ← num_pixels;
  for_each (range 0 n 1) (λ i, _set_pixel_color i color PyFloat.lit_1_0) ;;
  _show_with_delay wait_ms.

(** *** One turn of the endless loop of [Run] *)

Definition Run_cycle : M () :=
  single_color CRYSTAL_BLUE 50 ;;
  alternating_colors CRYSTAL_BLUE PURE_WHITE 50 ;;
  pulse_between [WARM_WHITE; CRYSTAL_BLUE] 50 ;;
  for_each _DEMO_COLORS (λ color, pulse color 75) ;;
  christmas_colors 50 ;;
  candy_cane 50 ;;
  for_each _DEMO_COLORS (λ color, draw_and_erase color WARM_WHITE 50) ;;
  for_each _DEMO_COLORS (λ color, vapor_trail color 20 NONE 50).

(** * Specification vocabulary *)

(** ** Rounding *)

(** The exponent a mantissa is rounded at. *)
Definition round_exp (m e : Z) : Z := Z.max e (fexp PyFloat.prec PyFloat.emax (Zdigits2 m + e)).

(** The result of rounding: what [binary_round_aux] returns for the mantissa
    [m2] at exponent [e2]. *)
Definition round_result (s : bool) (m2 e2 : Z) : spec_float :=
  match m2 with
  | 0 => S754_zero s
  | Z.pos m => if e2 <=? PyFloat.emax - PyFloat.prec then S754_finite s m e2 else S754_infinity s
  | Z.neg _ => S754_nan
  end.

(** A float that is zero or finite with sign [s], a mantissa below [2 ^ 53] and
    an exponent of at most [E]. *)
Definition small_float (s : bool) (E : Z) (x : spec_float) : Prop :=
  x = S754_zero s ∨ ∃ m e, x = S754_finite s m e ∧ Z.pos m < 2 ^ 53 ∧ e <= E.

(** ** Traces *)

(** The state after a sequence of calls. *)
Definition after (evs : list event) (self : LightController) : LightController :=
  foldl (λ s ev, step_state ev s) self evs.

(** The buffer after a sequence of calls, and the frames they flush. *)
Fixpoint replay (evs : list event) (buf : list Z) : list Z :=
  match evs with
  | [] => buf
  | EvSetPixelColor n color :: evs' => replay evs' (write n color buf)
  | _ :: evs' => replay evs' buf
  end.

Fixpoint frames (evs : list event) (buf : list Z) : list (list Z) :=
  match evs with
  | [] => []
  | EvSetPixelColor n color :: evs' => frames evs' (write n color buf)
  | EvShow :: evs' => buf :: frames evs' buf
  | _ :: evs' => frames evs' buf
  end.


(** A method call that returns normally after making exactly the calls [evs]. *)
Definition performs (m : M ()) (self : LightController) (evs : list event) : Prop :=
  m self = (Ok (), after evs self).

(** The flush delay [wait_ms / 1000.0] when [time.sleep] accepts it. *)
Definition delay_of (wait_ms : Z) : result PyFloat.float :=
  secs ← PyFloat.int_div wait_ms PyFloat.lit_1000_0;
  match sleep_error secs with
  | Some e => Raise e
  | None => Ok secs
  end.

(** [color] at brightness [k / 10.0], as the fading loops compute it. *)
Definition shade (color : Colors) (k : Z) : result Z :=
  b ← PyFloat.int_div k PyFloat.lit_10_0;
  alter_brightness color b.

(** The same colour with every channel scaled in integer arithmetic. *)
Definition tenths (color : Colors) (k : Z) : Z :=
  Color (red_of (value color) * k / 10)
        (green_of (value color) * k / 10)
        (blue_of (value color) * k / 10).

(** The fading writes at head position [led_idx]: the head at full brightness,
    one tenth less per pixel towards lower indices, stopping above
    [max (led_idx - 10) 0]. *)
Definition fade_events (color : Colors) (led_idx : Z) : list event :=
  (λ j : nat, EvSetPixelColor (led_idx - Z.of_nat j) (tenths color (10 - Z.of_nat j)))
    <$> seq 0 (Z.to_nat (led_idx - Z.max (led_idx - 10) 0)).

(** The clearing write, made only when the lower bound is above pixel 0. *)
Definition clear_events (led_idx : Z) : list event :=
  if 0 <? Z.max (led_idx - 10) 0
  then [EvSetPixelColor (Z.max (led_idx - 10) 0) (value NONE)]
  else [].

Definition head_events (color : Colors) (secs : PyFloat.float) (led_idx : Z)
    : list event :=
  fade_events color led_idx ++ clear_events led_idx ++ [EvShow; EvSleep secs].

(** One pass over the head positions [heads] in one colour. *)
Definition pass_events (color : Colors) (secs : PyFloat.float) (heads : list Z)
    : list event :=
  concat (head_events color secs <$> heads).

(** ** Brightness scaling as the specification words it *)

(** [floor(channel * brightness)], the product taken in double precision. *)
Definition channel_floor (channel : Z) (brightness : PyFloat.float) : result Z :=
  x ← PyFloat.int_mul channel brightness; PyFloat.floor x.

(** A packed 24-bit colour [v] whose channels are the floored products. *)
Definition scale_spec (color : Colors) (brightness : PyFloat.float) (v : Z) : Prop :=
  channel_floor (red_of (value color)) brightness = Ok (red_of v)
  ∧ channel_floor (green_of (value color)) brightness = Ok (green_of v)
  ∧ channel_floor (blue_of (value color)) brightness = Ok (blue_of v)
  ∧ 0 <= v < 2 ^ 24.

(** A brightness in the unit interval: a valid double with [0.0 <= b <= 1.0]. *)
Definition unit_brightness (b : PyFloat.float) : Prop :=
  PyFloat.valid b = true
  ∧ PyFloat.leb (S754_zero false) b = true
  ∧ PyFloat.leb b PyFloat.lit_1_0 = true.

(** ** The calls of the other patterns *)

(** [color] at brightness [offset / float(trail)], as [vapor_trail] computes it. *)
Definition brightened (color : Colors) (offset trail : Z) : result Z :=
  t ← PyFloat.of_int trail;
  b ← PyFloat.int_div offset t;
  alter_brightness color b.

(** The calls of [vapor_trail] at head position [h] on [n] pixels, [vs] being
    the colours of the trail by offset. *)
Definition vapor_head_events (vs : list Z) (trail_color : Colors)
    (secs : PyFloat.float) (n h : Z) : list event :=
  imap (λ (offset : nat) v, EvSetPixelColor ((h + Z.of_nat offset) `mod` n) v) vs
  ++ [EvSetPixelColor h (value trail_color); EvShow; EvSleep secs].

(** The brightness levels of one [pulse], in tenths, frame by frame. *)
Definition pulse_levels : list Z :=
  [1; 2; 3; 4; 5; 6; 7; 8; 9; 10; 9; 8; 7; 6; 5; 4; 3; 2].

(** The calls of one frame of [pulse] on [n] pixels. *)
Definition pulse_frame_events (color : Colors) (secs : PyFloat.float) (n k : Z)
    : list event :=
  ((λ i : nat, EvSetPixelColor (Z.of_nat i) (tenths color k)) <$> seq 0 (Z.to_nat n))
  ++ [EvShow; EvSleep secs].


(** The pixel writes of [christmas_colors] on [3 * m] pixels. *)
Definition christmas_writes (m : nat) : list event :=
  concat ((λ j : nat,
             [EvSetPixelColor (3 * Z.of_nat j) (Color 102 102 102);
              EvSetPixelColor (3 * Z.of_nat j + 1) (Color 102 0 0);
              EvSetPixelColor (3 * Z.of_nat j + 2) (Color 0 102 0)]) <$> seq 0 m).

Definition is_write (ev : event) : Prop :=
  match ev with EvSetPixelColor _ _ => True | _ => False end.

(** The calls of one frame: pixel writes, then one flush and its delay. *)
Definition is_frame_block (block : list event) : Prop :=
  ∃ writes secs, block = writes ++ [EvShow; EvSleep secs] ∧ Forall is_write writes.


(** ** Vocabulary of the claims *)

(** A strip of [n] pixels all showing the packed colour [v], nothing flushed. *)
Definition solid_strip (n : nat) (v : Z) : PixelStrip :=
  {| leds := replicate n v; shown := [] |}.


(** The literal [2.0]. *)
Definition lit_2_0 : PyFloat.float := S754_finite false 4503599627370496 (-51).



(** ** Vocabulary of the further properties *)

(** A controller whose cached pixel count is that of its strip, as
    [__init__] leaves it and every method keeps it. *)
Definition well_formed (self : LightController) : Prop :=
  _num_pixels self = numPixels (_strip self).

(** The calls of one frame that stores the packed colour [v] into every pixel
    of [n]. *)
Definition solid_frame_events (v : Z) (secs : PyFloat.float) (n : Z) : list event :=
  ((λ i : nat, EvSetPixelColor (Z.of_nat i) v) <$> seq 0 (Z.to_nat n))
  ++ [EvShow; EvSleep secs].

(** The pixel writes of [alternating_colors]: [m] pairs of pixels. *)
Definition alternating_writes (first second : Colors) (m : nat) : list event :=
  concat ((λ j : nat,
             [EvSetPixelColor (2 * Z.of_nat j) (value first);
              EvSetPixelColor (2 * Z.of_nat j + 1) (value second)]) <$> seq 0 m).


(** A call whose pixel index, if it has one, lies on a strip of [n] pixels. *)
Definition on_strip (n : Z) (ev : event) : Prop :=
  match ev with EvSetPixelColor i _ => 0 <= i < n | _ => True end.

(** The number of flushes in a sequence of calls. *)
Fixpoint flushes (evs : list event) : nat :=
  match evs with
  | [] => 0
  | EvShow :: evs' => S (flushes evs')
  | _ :: evs' => flushes evs'
  end.

(** A method that, on every controller, returns normally after calls that
    flush [count n] frames, [n] being the pixel count. *)
Definition flushing (m : M ()) (count : Z → nat) : Prop :=
  ∀ self, ∃ evs, performs m self evs ∧ flushes evs = count (_num_pixels self).

(** ** The patterns and what their flushes show *)









(** ** Rounding in binary64 *)

Section IterPos.
Context {A : Type} (f : A → A).

Lemma iter_pos_nat (p : positive) (x : A) :
  SpecFloat.iter_pos f p x = Nat.iter (Pos.to_nat p) f x.
Proof.
  revert x. induction p as [p IH|p IH|]; intros x; cbn [SpecFloat.iter_pos].
  - rewrite !IH. rewrite Pos2Nat.inj_xI.
    replace (S (2 * Pos.to_nat p))%nat with (Pos.to_nat p + (Pos.to_nat p + 1))%nat by lia.
    rewrite !Nat.iter_add. simpl. done.
  - rewrite !IH. rewrite Pos2Nat.inj_xO.
    replace (2 * Pos.to_nat p)%nat with (Pos.to_nat p + Pos.to_nat p)%nat by lia.
    by rewrite Nat.iter_add.
  - done.
Qed.
End IterPos.

Lemma shr_1_m mrs : 0 <= shr_m mrs → shr_m (shr_1 mrs) = shr_m mrs / 2.
Proof.
  destruct mrs as [m r s]. simpl. intros Hm.
  destruct m as [|[p|p|]|p]; simpl; try done; try lia.
  - apply (Z.div_unique _ 2 _ 1); lia.
  - apply (Z.div_unique _ 2 _ 0); lia.
Qed.

Lemma shr_1_nonneg mrs : 0 <= shr_m mrs → 0 <= shr_m (shr_1 mrs).
Proof. intros H. rewrite shr_1_m by done. by apply Z.div_pos. Qed.

Lemma iter_shr_1_m (k : nat) mrs :
  0 <= shr_m mrs → shr_m (Nat.iter k shr_1 mrs) = shr_m mrs / 2 ^ Z.of_nat k.
Proof.
  intros Hm. induction k as [|k IH].
  - simpl. by rewrite Z.div_1_r.
  - rewrite Nat2Z.inj_succ, Z.pow_succ_r by lia. rewrite Nat.iter_succ.
    rewrite shr_1_m, IH.
    + rewrite Z.div_div by lia. f_equal. lia.
    + rewrite IH. apply Z.div_pos; lia.
Qed.

(** Bits shifted out of an exact record: the location stays exact exactly when
    they are all zero. *)
Lemma iter_shr_1_exact (k : nat) m :
  0 <= m →
  m mod 2 ^ Z.of_nat k = 0 →
  loc_of_shr_record (Nat.iter k shr_1 (shr_record_of_loc m loc_Exact)) = loc_Exact.
Proof.
  intros Hm. induction k as [|k IH]; intros Hmod.
  - done.
  - rewrite Nat.iter_succ.
    rewrite Nat2Z.inj_succ, Z.pow_succ_r in Hmod by lia.
    assert (m mod 2 ^ Z.of_nat k = 0) as Hk.
    { apply Z.mod_divide in Hmod; [|lia]. apply Z.mod_divide; [lia|].
      destruct Hmod as [c Hc]. exists (c * 2). lia. }
    specialize (IH Hk).
    pose proof (iter_shr_1_m k (shr_record_of_loc m loc_Exact) Hm) as Hq.
    destruct (Nat.iter k shr_1 (shr_record_of_loc m loc_Exact)) as [q r s].
    simpl in Hq. destruct r, s; try discriminate IH.
    assert (q mod 2 = 0) as Hq2.
    { subst q. apply Z.mod_divide in Hmod; [|lia]. destruct Hmod as [c Hc].
      rewrite Hc. replace (c * (2 * 2 ^ Z.of_nat k)) with (c * 2 * 2 ^ Z.of_nat k) by lia.
      rewrite Z.div_mul by lia. apply Z.mod_mul. lia. }
    destruct q as [|[p|p|]|p]; simpl; try done.
    + rewrite Pos2Z.inj_xI in Hq2.
      replace (2 * Z.pos p + 1) with (1 + Z.pos p * 2) in Hq2 by lia.
      rewrite Z.mod_add in Hq2 by lia. done.
    + subst. assert (0 <= m / 2 ^ Z.of_nat k) by (apply Z.div_pos; lia). lia.
Qed.

Lemma fexp_eq e : fexp PyFloat.prec PyFloat.emax e = Z.max (e - 53) (-1074).
Proof. reflexivity. Qed.

Lemma Zdigits2_pos_bounds p :
  2 ^ (Zdigits2 (Z.pos p) - 1) <= Z.pos p < 2 ^ Zdigits2 (Z.pos p).
Proof.
  simpl. induction p as [p IH|p IH|]; simpl.
  - rewrite Pos2Z.inj_succ.
    replace (Z.succ (Z.pos (digits2_pos p)) - 1) with (Z.succ (Z.pos (digits2_pos p) - 1)) by lia.
    rewrite !Z.pow_succ_r by lia. lia.
  - rewrite Pos2Z.inj_succ.
    replace (Z.succ (Z.pos (digits2_pos p)) - 1) with (Z.succ (Z.pos (digits2_pos p) - 1)) by lia.
    rewrite !Z.pow_succ_r by lia. lia.
  - lia.
Qed.

Lemma Zdigits2_nonneg m : 0 <= m → 0 <= Zdigits2 m.
Proof. destruct m; simpl; lia. Qed.

Lemma Zdigits2_upper m : 0 <= m → m < 2 ^ Zdigits2 m.
Proof.
  destruct m as [|p|p]; intros Hm; [simpl; lia | apply Zdigits2_pos_bounds | lia].
Qed.

Lemma Zdigits2_lower m : 0 < m → 2 ^ (Zdigits2 m - 1) <= m.
Proof.
  destruct m as [|p|p]; intros Hm; [lia | apply Zdigits2_pos_bounds | lia].
Qed.

(** A number below [2 ^ k] has at most [k] digits. *)
Lemma Zdigits2_le m k : 0 <= m → 0 <= k → m < 2 ^ k → Zdigits2 m <= k.
Proof.
  intros Hm Hk Hlt. destruct (Z.eq_dec m 0) as [->|Hne]; [simpl; lia|].
  pose proof (Zdigits2_lower m ltac:(lia)) as Hlow.
  destruct (Z.le_gt_cases (Zdigits2 m) k) as [|Hgt]; [done|].
  assert (2 ^ k <= 2 ^ (Zdigits2 m - 1)) by (apply Z.pow_le_mono_r; lia). lia.
Qed.

Lemma Zdigits2_mono m n : 0 <= m <= n → Zdigits2 m <= Zdigits2 n.
Proof.
  intros [Hm Hn]. apply Zdigits2_le; [done | by apply Zdigits2_nonneg; lia |].
  pose proof (Zdigits2_upper n ltac:(lia)). lia.
Qed.

Lemma div_pow2_nonneg m k : 0 <= m → 0 <= m / 2 ^ k.
Proof. intros Hm. apply Z_div_nonneg_nonneg; [done | apply Z.pow_nonneg; lia]. Qed.

Lemma shr_spec mrs e n :
  0 <= shr_m mrs →
  (shr mrs e n).2 = e + Z.max n 0
  ∧ shr_m (shr mrs e n).1 = shr_m mrs / 2 ^ Z.max n 0.
Proof.
  intros Hm. destruct n as [|p|p]; simpl.
  - rewrite Z.div_1_r. lia.
  - rewrite iter_pos_nat, iter_shr_1_m by done.
    rewrite positive_nat_Z. split; [lia|]. f_equal.
  - rewrite Z.div_1_r. lia.
Qed.

Lemma shr_exact m e n :
  0 <= m → m mod 2 ^ Z.max n 0 = 0 →
  loc_of_shr_record (shr (shr_record_of_loc m loc_Exact) e n).1 = loc_Exact.
Proof.
  intros Hm Hmod. destruct n as [|p|p]; simpl; try done.
  rewrite iter_pos_nat. apply iter_shr_1_exact; [done|].
  by rewrite positive_nat_Z.
Qed.

Lemma shr_record_of_loc_m m l : shr_m (shr_record_of_loc m l) = m.
Proof. by destruct l as [|[]]. Qed.

Lemma shr_fexp_spec m e l :
  0 <= m →
  (shr_fexp PyFloat.prec PyFloat.emax m e l).2 = round_exp m e
  ∧ shr_m (shr_fexp PyFloat.prec PyFloat.emax m e l).1 = m / 2 ^ (round_exp m e - e).
Proof.
  intros Hm. unfold shr_fexp.
  destruct (shr_spec (shr_record_of_loc m l) e
              (fexp PyFloat.prec PyFloat.emax (Zdigits2 m + e) - e)) as [He Hq].
  { by rewrite shr_record_of_loc_m. }
  rewrite shr_record_of_loc_m in Hq. rewrite He, Hq. unfold round_exp.
  split; [lia | f_equal; f_equal; lia].
Qed.

Lemma shr_fexp_exact m e :
  0 <= m → m mod 2 ^ (round_exp m e - e) = 0 →
  loc_of_shr_record (shr_fexp PyFloat.prec PyFloat.emax m e loc_Exact).1 = loc_Exact.
Proof.
  intros Hm Hmod. unfold shr_fexp. apply shr_exact; [done|].
  unfold round_exp in Hmod.
  replace (Z.max (fexp PyFloat.prec PyFloat.emax (Zdigits2 m + e) - e) 0)
    with (Z.max e (fexp PyFloat.prec PyFloat.emax (Zdigits2 m + e)) - e) by lia. done.
Qed.

Lemma round_nearest_even_bounds m l : m <= round_nearest_even m l <= m + 1.
Proof. destruct l as [|[]]; simpl; try lia. destruct (Z.even m); lia. Qed.

Lemma binary_round_aux_spec s mx ex lx :
  0 <= mx →
  ∃ m1,
    let e1 := round_exp mx ex in
    let e2 := round_exp m1 e1 in
    mx / 2 ^ (e1 - ex) <= m1 <= mx / 2 ^ (e1 - ex) + 1
    ∧ (lx = loc_Exact → mx mod 2 ^ (e1 - ex) = 0 → m1 = mx / 2 ^ (e1 - ex))
    ∧ binary_round_aux PyFloat.prec PyFloat.emax s mx ex lx = round_result s (m1 / 2 ^ (e2 - e1)) e2.
Proof.
  intros Hmx. unfold binary_round_aux.
  destruct (shr_fexp_spec mx ex lx Hmx) as [He1 Hm1].
  pose proof (shr_fexp_exact mx ex Hmx) as Hex.
  destruct (shr_fexp PyFloat.prec PyFloat.emax mx ex lx) as [mrs1 e1] eqn:Hshr1. simpl in He1, Hm1.
  set (m1 := round_nearest_even (shr_m mrs1) (loc_of_shr_record mrs1)).
  assert (0 <= shr_m mrs1) as Hq1 by (rewrite Hm1; by apply div_pow2_nonneg).
  pose proof (round_nearest_even_bounds (shr_m mrs1) (loc_of_shr_record mrs1)) as Hb.
  fold m1 in Hb.
  destruct (shr_fexp_spec m1 e1 loc_Exact ltac:(lia)) as [He2 Hm2].
  destruct (shr_fexp PyFloat.prec PyFloat.emax m1 e1 loc_Exact) as [mrs2 e2]. simpl in He2, Hm2.
  exists m1. simpl. subst e1 e2. rewrite <- Hm1. split; [done|]. split.
  - intros -> Hmod. rewrite Hshr1 in Hex. simpl in Hex.
    unfold m1. by rewrite Hex.
  - rewrite Hm2. done.
Qed.

Lemma Zdigits2_unique m k : 2 ^ (k - 1) <= m < 2 ^ k → 0 < m → Zdigits2 m = k.
Proof.
  intros [Hlo Hhi] Hm.
  assert (0 <= k) as Hk.
  { destruct (Z.le_gt_cases 0 k); [done|]. rewrite Z.pow_neg_r in Hhi; lia. }
  pose proof (Zdigits2_le m k ltac:(lia) Hk Hhi) as Hle.
  pose proof (Zdigits2_upper m ltac:(lia)) as Hup.
  pose proof (Zdigits2_nonneg m ltac:(lia)) as Hnn.
  destruct (Z.eq_dec (Zdigits2 m) k) as [|Hne]; [done|].
  assert (2 ^ Zdigits2 m <= 2 ^ (k - 1)) by (apply Z.pow_le_mono_r; lia). lia.
Qed.

Lemma round_exp_ge m e : e <= round_exp m e ∧ -1074 <= round_exp m e.
Proof. unfold round_exp. rewrite fexp_eq. lia. Qed.

(** Rounding yields a zero or a finite number below [2 ^ 53] in mantissa, at an
    exponent at most one above the rounding exponent. *)
Lemma binary_round_aux_bounds s mx ex lx :
  0 <= mx →
  ∃ m2 e2,
    binary_round_aux PyFloat.prec PyFloat.emax s mx ex lx = round_result s m2 e2
    ∧ 0 <= m2 < 2 ^ 53
    ∧ round_exp mx ex <= e2 <= round_exp mx ex + 1.
Proof.
  intros Hmx.
  destruct (binary_round_aux_spec s mx ex lx Hmx) as (m1 & Hm1 & _ & Hres).
  simpl in Hm1, Hres. set (e1 := round_exp mx ex) in *.
  set (q := mx / 2 ^ (e1 - ex)) in *.
  assert (0 <= e1 - ex ∧ Zdigits2 mx - 53 <= e1 - ex ∧ -1074 <= e1) as (Hn & Hd & He1).
  { unfold e1, round_exp. rewrite fexp_eq. lia. }
  assert (0 <= q < 2 ^ 53) as Hq.
  { split; [by apply div_pow2_nonneg|].
    apply Z.div_lt_upper_bound; [by apply Z.pow_pos_nonneg|].
    pose proof (Zdigits2_upper mx Hmx) as Hup.
    pose proof (Zdigits2_nonneg mx Hmx) as Hdn.
    rewrite <- Z.pow_add_r by lia.
    assert (2 ^ Zdigits2 mx <= 2 ^ (e1 - ex + 53)) by (apply Z.pow_le_mono_r; lia).
    lia. }
  exists (m1 / 2 ^ (round_exp m1 e1 - e1)), (round_exp m1 e1).
  split; [done|].
  destruct (Z.eq_dec m1 (2 ^ 53)) as [->|Hne].
  - assert (round_exp (2 ^ 53) e1 = e1 + 1) as ->.
    { unfold round_exp. rewrite fexp_eq. change (Zdigits2 (2 ^ 53)) with 54. lia. }
    replace (e1 + 1 - e1) with 1 by lia. split; [|lia].
    change (2 ^ 53 / 2 ^ 1) with (2 ^ 52). lia.
  - assert (m1 < 2 ^ 53) as Hlt by lia.
    assert (round_exp m1 e1 = e1) as ->.
    { unfold round_exp. rewrite fexp_eq.
      pose proof (Zdigits2_le m1 53 ltac:(lia) ltac:(lia) Hlt). lia. }
    rewrite Z.sub_diag, Z.div_1_r. lia.
Qed.

Lemma binary_round_aux_small s mx ex lx E :
  0 <= mx → round_exp mx ex + 1 <= E → E <= 971 →
  small_float s E (binary_round_aux PyFloat.prec PyFloat.emax s mx ex lx).
Proof.
  intros Hmx HE HE'.
  destruct (binary_round_aux_bounds s mx ex lx Hmx) as (m2 & e2 & -> & Hm2 & He2).
  unfold round_result. destruct m2 as [|p|p]; [by left | | lia].
  right. exists p, e2. change (PyFloat.emax - PyFloat.prec) with 971.
  destruct (Z.leb_spec e2 971); [|lia]. split; [done|]. lia.
Qed.

Lemma round_exp_le m e k :
  0 <= m → 0 <= k → m < 2 ^ k → round_exp m e <= Z.max e (Z.max (k + e - 53) (-1074)).
Proof.
  intros Hm Hk Hlt. unfold round_exp. rewrite fexp_eq.
  pose proof (Zdigits2_le m k Hm Hk Hlt). lia.
Qed.

Lemma SFmul_small sx mx ex sy my ey E :
  Z.pos mx < 2 ^ 53 → Z.pos my < 2 ^ 53 →
  Z.max (ex + ey) (Z.max (53 + ex + ey) (-1074)) + 1 <= E → E <= 971 →
  small_float (xorb sx sy) E
    (SFmul PyFloat.prec PyFloat.emax (S754_finite sx mx ex) (S754_finite sy my ey)).
Proof.
  intros Hx Hy HE HE'. simpl.
  apply binary_round_aux_small; [lia | | done].
  pose proof (round_exp_le (Z.pos (mx * my)) (ex + ey) 106 ltac:(lia) ltac:(lia)) as H.
  rewrite Pos2Z.inj_mul in *.
  assert (Z.pos mx * Z.pos my < 2 ^ 106).
  { change (2 ^ 106) with (2 ^ 53 * 2 ^ 53). nia. }
  specialize (H ltac:(done)). lia.
Qed.

(** ** Conversions, quotients and products that cannot fail *)

Lemma iter_xO_pow p d : Z.pos (Pos.iter xO p d) = Z.pos p * 2 ^ Z.pos d.
Proof.
  apply (Pos.iter_ind positive xO p (λ d q, Z.pos q = Z.pos p * 2 ^ Z.pos d)).
  - rewrite Z.pow_1_r. lia.
  - intros d' q IH. rewrite Pos2Z.inj_succ, Z.pow_succ_r by lia.
    rewrite Pos2Z.inj_xO, IH. lia.
Qed.

Lemma shl_align_spec p e e' :
  e' <= e →
  (shl_align p e e').2 = e' ∧ Z.pos (shl_align p e e').1 = Z.pos p * 2 ^ (e - e').
Proof.
  intros Hle. unfold shl_align.
  destruct (e' - e) as [|d|d] eqn:Hd; simpl.
  - assert (e = e') as -> by lia. rewrite Z.sub_diag. lia.
  - lia.
  - rewrite iter_xO_pow. split; [done|]. f_equal. f_equal. lia.
Qed.

(** An integer below [2 ^ 53] converts exactly, to a full 53-bit mantissa. *)
Lemma of_int_pos z :
  0 < z < 2 ^ 53 →
  ∃ m e, PyFloat.of_int z = Ok (S754_finite false m e)
         ∧ 2 ^ 52 <= Z.pos m < 2 ^ 53
         ∧ e = Zdigits2 z - 53
         ∧ Z.pos m = z * 2 ^ (- e).
Proof.
  intros [Hz Hlt]. destruct z as [|p|p]; try lia.
  unfold PyFloat.of_int, binary_normalize, binary_round.
  pose proof (Zdigits2_pos_bounds p) as Hdig.
  pose proof (Zdigits2_le (Z.pos p) 53 ltac:(lia) ltac:(lia) Hlt) as Hd53.
  set (d := Zdigits2 (Z.pos p)) in *.
  assert (0 < d) as Hdpos by (unfold d; simpl; lia).
  change (Z.pos (digits2_pos p)) with d.
  assert (fexp PyFloat.prec PyFloat.emax (d + 0) = d - 53) as ->
    by (rewrite fexp_eq; lia).
  destruct (shl_align_spec p 0 (d - 53) ltac:(lia)) as [He Hm].
  destruct (shl_align p 0 (d - 53)) as [mz ez]. simpl in He, Hm. subst ez.
  replace (0 - (d - 53)) with (53 - d) in Hm by lia.
  assert (2 ^ 52 <= Z.pos mz < 2 ^ 53) as Hmz.
  { rewrite Hm.
    assert (2 ^ 52 = 2 ^ (d - 1) * 2 ^ (53 - d)) as ->
      by (rewrite <- Z.pow_add_r by lia; f_equal; lia).
    assert (2 ^ 53 = 2 ^ d * 2 ^ (53 - d)) as ->
      by (rewrite <- Z.pow_add_r by lia; f_equal; lia).
    assert (0 < 2 ^ (53 - d)) by (apply Z.pow_pos_nonneg; lia). nia. }
  assert (Zdigits2 (Z.pos mz) = 53) as Hdz by (apply Zdigits2_unique; lia).
  destruct (binary_round_aux_spec false (Z.pos mz) (d - 53) loc_Exact ltac:(lia))
    as (m1 & _ & Hexact & ->).
  simpl in Hexact.
  assert (round_exp (Z.pos mz) (d - 53) = d - 53) as He1.
  { unfold round_exp. rewrite fexp_eq, Hdz. lia. }
  rewrite He1 in *. rewrite Z.sub_diag, Z.pow_0_r, Z.div_1_r in Hexact.
  specialize (Hexact eq_refl (Z.mod_1_r _)). subst m1.
  rewrite He1, Z.sub_diag, Z.pow_0_r, Z.div_1_r.
  unfold round_result. change (PyFloat.emax - PyFloat.prec) with 971.
  destruct (Z.leb_spec (d - 53) 971); [|lia].
  exists mz, (d - 53). repeat split; try lia.
  rewrite Hm. f_equal. f_equal. lia.
Qed.

Lemma of_int_zero : PyFloat.of_int 0 = Ok (S754_zero false).
Proof. reflexivity. Qed.

(** The quotient of two full-mantissa floats. *)
Lemma SFdiv_small s1 m1 e1 s2 m2 e2 E :
  Z.pos m1 < 2 ^ 53 → 2 ^ 52 <= Z.pos m2 →
  Z.max (e1 - e2) (-1074) + 1 <= E → E <= 971 →
  small_float (xorb s1 s2) E
    (SFdiv PyFloat.prec PyFloat.emax (S754_finite s1 m1 e1) (S754_finite s2 m2 e2)).
Proof.
  intros Hm1 Hm2 HE HE'. unfold SFdiv, SFdiv_core_binary.
  set (e' := Z.min _ _).
  set (m' := match e1 - e2 - e' with
             | 0 => Z.pos m1
             | Z.pos _ => Z.shiftl (Z.pos m1) (e1 - e2 - e')
             | Z.neg _ => 0
             end).
  assert (e' <= e1 - e2) as He' by (unfold e'; lia).
  assert (m' = Z.pos m1 * 2 ^ (e1 - e2 - e')) as Hm'.
  { unfold m'. destruct (e1 - e2 - e') as [|p|p] eqn:Hs; [simpl; lia | | lia].
    by rewrite Z.shiftl_mul_pow2. }
  pose proof (Z_div_mod m' (Z.pos m2) ltac:(lia)) as Hdm.
  destruct (Z.div_eucl m' (Z.pos m2)) as [q r]. destruct Hdm as [Hq Hr].
  assert (0 < 2 ^ (e1 - e2 - e')) as Hpow by (apply Z.pow_pos_nonneg; lia).
  assert (0 <= q) as Hq0 by nia.
  assert (q < 2 ^ (e1 - e2 - e' + 1)) as Hqlt.
  { rewrite Z.pow_add_r by lia. change (2 ^ 1) with 2.
    change (2 ^ 53) with (2 * 2 ^ 52) in Hm1. nia. }
  apply binary_round_aux_small; [done | | done].
  pose proof (round_exp_le q e' (e1 - e2 - e' + 1) Hq0 ltac:(lia) Hqlt). lia.
Qed.

(** [int(x)] succeeds on every such float. *)
Lemma to_int_small s E x : small_float s E x → ∃ v, PyFloat.to_int x = Ok v.
Proof. intros [->|(m & e & -> & _)]; simpl; eauto. Qed.

Lemma scale_channel_ok channel s E b :
  0 <= channel < 2 ^ 53 → small_float s E b → E <= 900 →
  ∃ v, scale_channel channel b = Ok v.
Proof.
  intros Hc Hb HE. unfold scale_channel, PyFloat.int_mul.
  destruct (Z.eq_dec channel 0) as [->|Hne].
  - rewrite of_int_zero. simpl.
    destruct Hb as [->|(m & e & -> & _)]; simpl; eauto.
  - destruct (of_int_pos channel ltac:(lia)) as (mc & ec & -> & Hmc & Hec & _).
    unfold mbind, result_bind, mret, result_ret, PyFloat.mul.
    destruct Hb as [->|(m & e & -> & Hm & He)]; [simpl; eauto|].
    pose proof (Zdigits2_nonneg channel ltac:(lia)).
    pose proof (Zdigits2_le channel 53 ltac:(lia) ltac:(lia) ltac:(lia)).
    eapply (to_int_small _ 971), SFmul_small; try lia.
Qed.

Lemma channel_bounds v :
  (0 <= red_of v < 256) ∧ (0 <= green_of v < 256) ∧ (0 <= blue_of v < 256).
Proof.
  unfold red_of, green_of, blue_of. change 255 with (Z.ones 8).
  rewrite !Z.land_ones by lia. change (2 ^ 8) with 256.
  repeat split; apply Z.mod_pos_bound; lia.
Qed.

Lemma alter_brightness_ok color s E b :
  small_float s E b → E <= 900 → ∃ v, alter_brightness color b = Ok v.
Proof.
  intros Hb HE. unfold alter_brightness.
  destruct (channel_bounds (value color)) as (Hr & Hg & Hbl).
  destruct (scale_channel_ok (red_of (value color)) s E b) as [r ->]; [lia|done|done|].
  destruct (scale_channel_ok (green_of (value color)) s E b) as [g ->]; [lia|done|done|].
  destruct (scale_channel_ok (blue_of (value color)) s E b) as [bl ->]; [lia|done|done|].
  simpl. eauto.
Qed.

(** [num / float(den)] for integers below [2 ^ 53]. *)
Lemma int_div_float_ok num den :
  0 <= num < 2 ^ 53 → 0 < den < 2 ^ 53 →
  ∃ d b, PyFloat.of_int den = Ok d ∧ PyFloat.int_div num d = Ok b
         ∧ small_float false 54 b.
Proof.
  intros Hn Hd.
  destruct (of_int_pos den Hd) as (md & ed & Hden & Hmd & Hed & _).
  exists (S754_finite false md ed). unfold PyFloat.int_div.
  pose proof (Zdigits2_nonneg den ltac:(lia)).
  pose proof (Zdigits2_le den 53 ltac:(lia) ltac:(lia) ltac:(lia)).
  destruct (Z.eq_dec num 0) as [->|Hne].
  - rewrite of_int_zero. simpl. eexists. split; [done|]. split; [done|]. by left.
  - destruct (of_int_pos num ltac:(lia)) as (mn & en & -> & Hmn & Hen & _).
    simpl. eexists. split; [done|]. split; [done|].
    pose proof (Zdigits2_nonneg num ltac:(lia)).
    pose proof (Zdigits2_le num 53 ltac:(lia) ltac:(lia) ltac:(lia)).
    apply (SFdiv_small false mn en false md ed 54); lia.
Qed.

Lemma shiftl_nonpos a e : e <= 0 → Z.shiftl a e = a / 2 ^ (- e).
Proof.
  apply Z.shiftl_div_pow2.
Qed.

Lemma round_quotient_lt mx ex :
  0 <= mx → mx / 2 ^ (round_exp mx ex - ex) < 2 ^ 53.
Proof.
  intros Hmx.
  assert (0 <= round_exp mx ex - ex ∧ Zdigits2 mx - 53 <= round_exp mx ex - ex)
    as [Hn Hd] by (unfold round_exp; rewrite fexp_eq; lia).
  apply Z.div_lt_upper_bound; [by apply Z.pow_pos_nonneg|].
  pose proof (Zdigits2_upper mx Hmx) as Hup.
  pose proof (Zdigits2_nonneg mx Hmx) as Hdn.
  rewrite <- Z.pow_add_r by lia.
  assert (2 ^ Zdigits2 mx <= 2 ^ (round_exp mx ex - ex + 53))
    by (apply Z.pow_le_mono_r; lia).
  lia.
Qed.

Lemma round_exp_succ m e :
  0 <= m <= 2 ^ 53 → -1074 <= e → e <= round_exp m e <= e + 1.
Proof.
  intros Hm He. unfold round_exp. rewrite fexp_eq.
  assert (m < 2 ^ 54) as Hlt.
  { change (2 ^ 54) with (2 * 2 ^ 53). lia. }
  pose proof (Zdigits2_le m 54 ltac:(lia) ltac:(lia) Hlt). lia.
Qed.

(** ** Scaling by a brightness in the unit interval *)

(** A valid float between 0.0 and 1.0 is a zero or a positive mantissa of at
    most [2 ^ (- e)] at an exponent [e <= -52]. *)
Lemma unit_brightness_inv b :
  unit_brightness b →
  (∃ s, b = S754_zero s)
  ∨ ∃ m e, b = S754_finite false m e ∧ Z.pos m <= 2 ^ (- e) ∧ e <= -52.
Proof.
  intros (Hv & H0 & H1).
  destruct b as [s|s| |s m e]; try discriminate;
    [left; eauto | destruct s; discriminate |].
  destruct s; [discriminate|]. right. exists m, e. split; [done|].
  unfold PyFloat.valid, valid_binary, bounded, canonical_mantissa in Hv.
  apply andb_prop in Hv as [Hc _]. apply Z.eqb_eq in Hc. rewrite fexp_eq in Hc.
  pose proof (Zdigits2_pos_bounds m) as Hdig. simpl Zdigits2 in Hdig.
  set (d := Z.pos (digits2_pos m)) in *.
  assert (d <= 53) as Hd by lia.
  assert (Z.pos m < 2 ^ 53) as Hm.
  { assert (2 ^ d <= 2 ^ 53) by (apply Z.pow_le_mono_r; lia). lia. }
  unfold PyFloat.leb, SFleb, SFcompare, PyFloat.lit_1_0 in H1.
  destruct (Z.compare_spec e (-52)) as [->|Hlt|Hgt]; [| |discriminate].
  - split; [|lia]. change (2 ^ (- -52)) with 4503599627370496.
    rewrite Pos.compare_cont_spec in H1. simpl Pos.switch_Eq in H1.
    destruct (Pos.compare_spec m 4503599627370496) as [Heq|Hl|Hg].
    + rewrite Heq. apply Z.le_refl.
    + apply Z.lt_le_incl, Pos2Z.pos_lt_pos, Hl.
    + discriminate H1.
  - split; [|lia].
    assert (2 ^ 53 <= 2 ^ (- e)) by (apply Z.pow_le_mono_r; lia). lia.
Qed.

(** Scaling a channel by such a brightness cannot fail, never exceeds the
    channel, and truncation and floor agree on it. *)
Lemma scale_channel_unit channel b :
  0 <= channel < 2 ^ 53 → unit_brightness b →
  ∃ v, scale_channel channel b = Ok v
       ∧ channel_floor channel b = Ok v
       ∧ 0 <= v <= channel.
Proof.
  intros Hc Hb. unfold scale_channel, channel_floor, PyFloat.int_mul.
  destruct (Z.eq_dec channel 0) as [->|Hne].
  { rewrite of_int_zero.
    destruct (unit_brightness_inv b Hb) as [[s ->]|(m & e & -> & _)];
      exists 0; simpl; repeat split; lia. }
  destruct (of_int_pos channel ltac:(lia)) as (mc & ec & -> & Hmc & Hec & Hval).
  destruct (unit_brightness_inv b Hb) as [[s ->]|(m & e & -> & Hm & He)].
  { exists 0. simpl. repeat split; lia. }
  unfold mbind, result_bind, mret, result_ret, PyFloat.mul, SFmul. simpl xorb.
  pose proof (Zdigits2_nonneg channel ltac:(lia)) as Hd0.
  pose proof (Zdigits2_le channel 53 ltac:(lia) ltac:(lia) ltac:(lia)) as Hd53.
  set (mx := Z.pos (mc * m)). set (ex := ec + e).
  assert (0 < mx) as Hmx by (unfold mx; lia).
  assert (ex <= -52) as Hex by (unfold ex; lia).
  assert (mx <= channel * 2 ^ (- ex)) as Hbound.
  { unfold mx, ex. rewrite Pos2Z.inj_mul, Hval.
    replace (- (ec + e)) with (- ec + - e) by lia.
    rewrite Z.pow_add_r by lia.
    assert (0 < 2 ^ (- ec)) by (apply Z.pow_pos_nonneg; lia). nia. }
  destruct (binary_round_aux_spec false mx ex loc_Exact ltac:(lia))
    as (m1 & Hm1 & Hexact & ->).
  simpl in Hm1, Hexact. set (e1 := round_exp mx ex) in *.
  specialize (Hexact eq_refl).
  assert (ex <= e1 <= 0) as He1.
  { split; [apply round_exp_ge|].
    pose proof (round_exp_le mx ex (53 - ex) ltac:(lia) ltac:(lia)) as Hle.
    assert (mx < 2 ^ (53 - ex)); [|unfold e1; lia].
    replace (53 - ex) with (53 + - ex) by lia. rewrite Z.pow_add_r by lia.
    assert (0 < 2 ^ (- ex)) by (apply Z.pow_pos_nonneg; lia). nia. }
  set (n := e1 - ex) in *.
  assert (0 < 2 ^ n) as Hpn by (apply Z.pow_pos_nonneg; lia).
  assert (0 < 2 ^ (- e1)) as Hpe1 by (apply Z.pow_pos_nonneg; lia).
  assert (2 ^ (- ex) = 2 ^ (- e1) * 2 ^ n) as Hsplit.
  { rewrite <- Z.pow_add_r by lia. f_equal. lia. }
  assert (0 <= m1 <= channel * 2 ^ (- e1)) as HK.
  { pose proof (Z_div_mod_eq_full mx (2 ^ n)) as Hdm.
    pose proof (Z.mod_pos_bound mx (2 ^ n) Hpn) as Hr.
    assert (0 <= mx / 2 ^ n) by (apply div_pow2_nonneg; lia).
    split; [lia|].
    destruct (Z.eq_dec (mx mod 2 ^ n) 0) as [H0|Hn0].
    - rewrite (Hexact H0). apply Z.div_le_upper_bound; [done|]. nia.
    - assert (mx / 2 ^ n < channel * 2 ^ (- e1)); [|lia].
      apply Z.div_lt_upper_bound; [done|].
      rewrite Hsplit in Hbound.
      destruct (Z.eq_dec mx (channel * 2 ^ (- e1) * 2 ^ n)) as [Heq|Hneq].
      + rewrite Heq, Z.mod_mul in Hn0 by lia. done.
      + lia. }
  set (e2 := round_exp m1 e1).
  assert (e1 <= e2 <= e1 + 1) as He2.
  { pose proof (round_quotient_lt mx ex ltac:(lia)) as Hq. fold e1 n in Hq.
    apply round_exp_succ; [lia|]. apply round_exp_ge. }
  assert (0 < 2 ^ (e2 - e1)) as Hp2 by (apply Z.pow_pos_nonneg; lia).
  set (m2 := m1 / 2 ^ (e2 - e1)).
  assert (0 <= m2 ∧ m2 * 2 ^ (e2 - e1) <= m1) as [Hm2 Hm2le].
  { unfold m2. split; [apply div_pow2_nonneg; lia|].
    pose proof (Z_div_mod_eq_full m1 (2 ^ (e2 - e1))).
    pose proof (Z.mod_pos_bound m1 (2 ^ (e2 - e1)) Hp2). lia. }
  unfold round_result. destruct m2 as [|p|p] eqn:Hp; [| |lia].
  { exists 0. simpl. repeat split; lia. }
  change (PyFloat.emax - PyFloat.prec) with 971.
  destruct (Z.leb_spec e2 971); [|lia].
  exists (Z.shiftl (Z.pos p) e2). simpl. split; [done|]. split; [done|].
  destruct (Z.le_gt_cases e2 0) as [Hneg|Hpos].
  - rewrite shiftl_nonpos by done.
    assert (0 < 2 ^ (- e2)) as Hpe2 by (apply Z.pow_pos_nonneg; lia).
    split; [apply Z.div_pos; lia|].
    apply Z.div_le_upper_bound; [done|].
    assert (2 ^ (- e1) = 2 ^ (- e2) * 2 ^ (e2 - e1)) as Hs2.
    { rewrite <- Z.pow_add_r by lia. f_equal. lia. }
    rewrite Hs2 in HK.
    apply (Z.mul_le_mono_pos_r _ _ (2 ^ (e2 - e1))); [done|]. lia.
  - assert (e1 = 0 ∧ e2 = 1) as [He10 He21] by lia.
    rewrite He21. rewrite Z.shiftl_mul_pow2 by lia.
    rewrite He10, He21 in *. change (2 ^ (1 - 0)) with 2 in *.
    change (2 ^ (- 0)) with 1 in *. change (2 ^ 1) with 2. lia.
Qed.
(** ** The delay handed to [time.sleep] *)

Section Sleep.

(** Rounding a number that is neither subnormal nor too large gives a finite
    non-zero float less than one unit of the rounding exponent away from
    it. *)
Lemma binary_round_aux_finite s mx ex lx :
  2 <= mx → -1074 <= Zdigits2 mx + ex - 53 → round_exp mx ex + 1 <= 971 →
  ∃ m2 e2,
    binary_round_aux PyFloat.prec PyFloat.emax s mx ex lx = S754_finite s m2 e2
    ∧ Z.pos m2 < 2 ^ 53
    ∧ round_exp mx ex <= e2 <= round_exp mx ex + 1
    ∧ Z.pos m2 * 2 ^ (e2 - ex) <= mx + 2 ^ (round_exp mx ex - ex)
    ∧ mx < Z.pos m2 * 2 ^ (e2 - ex) + 2 ^ (round_exp mx ex - ex).
Proof.
  intros Hmx Hnorm Hmax.
  destruct (binary_round_aux_spec s mx ex lx ltac:(lia)) as (m1 & Hm1 & _ & Hres).
  simpl in Hm1, Hres. rewrite Hres. clear Hres.
  set (e1 := round_exp mx ex) in *.
  pose proof (Zdigits2_lower mx ltac:(lia)) as Hlow.
  pose proof (Zdigits2_nonneg mx ltac:(lia)) as Hd0.
  pose proof (round_quotient_lt mx ex ltac:(lia)) as Hq. fold e1 in Hq.
  assert (-1074 <= e1) as He1 by apply round_exp_ge.
  assert (e1 - ex = Z.max 0 (Zdigits2 mx - 53)) as Hshift
    by (unfold e1, round_exp; rewrite fexp_eq; lia).
  set (n := e1 - ex) in *.
  assert (0 < 2 ^ n) as Hpn by (apply Z.pow_pos_nonneg; lia).
  assert (2 <= mx / 2 ^ n) as Hq2.
  { rewrite Hshift. apply Z.div_le_lower_bound; [apply Z.pow_pos_nonneg; lia|].
    destruct (Z.le_gt_cases (Zdigits2 mx) 53) as [Hle|Hgt].
    - replace (Z.max 0 (Zdigits2 mx - 53)) with 0 by lia. simpl. lia.
    - replace (Z.max 0 (Zdigits2 mx - 53)) with (Zdigits2 mx - 53) by lia.
      assert (2 ^ (Zdigits2 mx - 1) = 2 ^ (Zdigits2 mx - 53) * 2 ^ 52) as Hsplit
        by (rewrite <- Z.pow_add_r by lia; f_equal; lia).
      assert (0 < 2 ^ (Zdigits2 mx - 53)) by (apply Z.pow_pos_nonneg; lia).
      change (2 ^ 52) with 4503599627370496 in Hsplit. nia. }
  pose proof (Z_div_mod_eq_full mx (2 ^ n)) as Hdm.
  pose proof (Z.mod_pos_bound mx (2 ^ n) Hpn) as Hr.
  set (q := mx / 2 ^ n) in *.
  assert (m1 * 2 ^ n <= mx + 2 ^ n ∧ mx < m1 * 2 ^ n + 2 ^ n) as [Hup Hlo] by nia.
  destruct (Z.eq_dec m1 (2 ^ 53)) as [Heq|Hne].
  - assert (round_exp m1 e1 = e1 + 1) as ->.
    { rewrite Heq. unfold round_exp. rewrite fexp_eq.
      change (Zdigits2 (2 ^ 53)) with 54. lia. }
    replace (e1 + 1 - e1) with 1 by lia.
    assert (m1 / 2 ^ 1 = 2 ^ 52) as -> by (rewrite Heq; reflexivity).
    unfold round_result. change (2 ^ 52) with (Z.pos 4503599627370496).
    change (PyFloat.emax - PyFloat.prec) with 971.
    destruct (Z.leb_spec (e1 + 1) 971); [|lia].
    exists 4503599627370496%positive, (e1 + 1). split; [done|].
    split; [reflexivity|]. split; [lia|].
    replace (e1 + 1 - ex) with (1 + n) by lia.
    rewrite Z.pow_add_r by lia.
    assert (Z.pos 4503599627370496 * (2 ^ 1 * 2 ^ n) = m1 * 2 ^ n) as ->.
    { rewrite Heq. change (2 ^ 53) with (Z.pos 4503599627370496 * 2 ^ 1). ring. }
    lia.
  - assert (round_exp m1 e1 = e1) as ->.
    { unfold round_exp. rewrite fexp_eq.
      pose proof (Zdigits2_le m1 53 ltac:(lia) ltac:(lia) ltac:(lia)). lia. }
    rewrite Z.sub_diag, Z.div_1_r.
    unfold round_result. destruct m1 as [|p|p]; [lia| |lia].
    change (PyFloat.emax - PyFloat.prec) with 971.
    destruct (Z.leb_spec e1 971); [|lia].
    exists p, e1. split; [done|]. split; [lia|]. split; [lia|]. fold n. lia.
Qed.

(** An integer of magnitude below [2 ^ 53] converts exactly, to a full
    53-bit mantissa with the sign of the integer. *)
Lemma binary_round_exact s p :
  Z.pos p < 2 ^ 53 →
  ∃ m e, binary_round PyFloat.prec PyFloat.emax s p 0 = S754_finite s m e
         ∧ 2 ^ 52 <= Z.pos m < 2 ^ 53
         ∧ e = Zdigits2 (Z.pos p) - 53
         ∧ Z.pos m = Z.pos p * 2 ^ (- e).
Proof.
  intros Hlt. unfold binary_round.
  pose proof (Zdigits2_pos_bounds p) as Hdig.
  pose proof (Zdigits2_le (Z.pos p) 53 ltac:(lia) ltac:(lia) Hlt) as Hd53.
  set (d := Zdigits2 (Z.pos p)) in *.
  assert (0 < d) as Hdpos by (unfold d; simpl; lia).
  change (Z.pos (digits2_pos p)) with d.
  assert (fexp PyFloat.prec PyFloat.emax (d + 0) = d - 53) as ->
    by (rewrite fexp_eq; lia).
  destruct (shl_align_spec p 0 (d - 53) ltac:(lia)) as [He Hm].
  destruct (shl_align p 0 (d - 53)) as [mz ez]. simpl in He, Hm. subst ez.
  replace (0 - (d - 53)) with (53 - d) in Hm by lia.
  assert (2 ^ 52 <= Z.pos mz < 2 ^ 53) as Hmz.
  { rewrite Hm.
    assert (2 ^ 52 = 2 ^ (d - 1) * 2 ^ (53 - d)) as ->
      by (rewrite <- Z.pow_add_r by lia; f_equal; lia).
    assert (2 ^ 53 = 2 ^ d * 2 ^ (53 - d)) as ->
      by (rewrite <- Z.pow_add_r by lia; f_equal; lia).
    assert (0 < 2 ^ (53 - d)) by (apply Z.pow_pos_nonneg; lia). nia. }
  assert (Zdigits2 (Z.pos mz) = 53) as Hdz by (apply Zdigits2_unique; lia).
  destruct (binary_round_aux_spec s (Z.pos mz) (d - 53) loc_Exact ltac:(lia))
    as (m1 & _ & Hexact & ->).
  simpl in Hexact.
  assert (round_exp (Z.pos mz) (d - 53) = d - 53) as He1.
  { unfold round_exp. rewrite fexp_eq, Hdz. lia. }
  rewrite He1 in *. rewrite Z.sub_diag, Z.pow_0_r, Z.div_1_r in Hexact.
  specialize (Hexact eq_refl (Z.mod_1_r _)). subst m1.
  rewrite He1, Z.sub_diag, Z.pow_0_r, Z.div_1_r.
  unfold round_result. change (PyFloat.emax - PyFloat.prec) with 971.
  destruct (Z.leb_spec (d - 53) 971); [|lia].
  exists mz, (d - 53). split; [done|]. split; [done|]. split; [done|].
  rewrite Hm. f_equal. f_equal. lia.
Qed.

(** The quotient of two full-mantissa floats of moderate exponents: finite,
    not zero, with the sign of the quotient, at most two units of the
    division exponent above the exact quotient and less than three below
    it. *)
Lemma SFdiv_value s1 m1 e1 s2 m2 e2 :
  2 ^ 52 <= Z.pos m1 < 2 ^ 53 → 2 ^ 52 <= Z.pos m2 < 2 ^ 53 →
  -900 <= e1 - e2 <= 900 →
  ∃ m e,
    SFdiv PyFloat.prec PyFloat.emax (S754_finite s1 m1 e1) (S754_finite s2 m2 e2)
    = S754_finite (xorb s1 s2) m e
    ∧ Z.pos m < 2 ^ 53
    ∧ e1 - e2 - 53 <= e <= e1 - e2 - 51
    ∧ Z.pos m * 2 ^ (e - (e1 - e2 - 53)) * Z.pos m2
      <= Z.pos m1 * 2 ^ 53 + 2 * Z.pos m2
    ∧ Z.pos m1 * 2 ^ 53
      < Z.pos m * 2 ^ (e - (e1 - e2 - 53)) * Z.pos m2 + 3 * Z.pos m2.
Proof.
  intros Hm1 Hm2 He. unfold SFdiv, SFdiv_core_binary.
  rewrite (Zdigits2_unique (Z.pos m1) 53), (Zdigits2_unique (Z.pos m2) 53)
    by (change (53 - 1) with 52; lia).
  replace (53 + e1 - (53 + e2)) with (e1 - e2) by lia.
  assert (Z.min (fexp PyFloat.prec PyFloat.emax (e1 - e2)) (e1 - e2) = e1 - e2 - 53)
    as -> by (rewrite fexp_eq; lia).
  replace (e1 - e2 - (e1 - e2 - 53)) with 53 by lia.
  rewrite Z.shiftl_mul_pow2 by lia.
  pose proof (Z_div_mod (Z.pos m1 * 2 ^ 53) (Z.pos m2) ltac:(lia)) as Hdm.
  destruct (Z.div_eucl (Z.pos m1 * 2 ^ 53) (Z.pos m2)) as [q r].
  destruct Hdm as [Hq Hr].
  set (e' := e1 - e2 - 53) in *.
  assert (2 ^ 52 <= q < 2 ^ 54) as Hqb.
  { change (2 ^ 54) with (2 * 2 ^ 53). change (2 ^ 53) with (2 * 2 ^ 52) in *.
    split; nia. }
  assert (53 <= Zdigits2 q <= 54) as Hdq.
  { pose proof (Zdigits2_upper q ltac:(lia)) as Hup.
    pose proof (Zdigits2_le q 54 ltac:(lia) ltac:(lia) ltac:(lia)) as Hle.
    split; [|done].
    destruct (Z.le_gt_cases 53 (Zdigits2 q)) as [|Hlt]; [done|].
    assert (2 ^ Zdigits2 q <= 2 ^ 52) by (apply Z.pow_le_mono_r; lia). lia. }
  assert (e' <= round_exp q e' <= e' + 1) as Hre.
  { unfold round_exp. rewrite fexp_eq. lia. }
  destruct (binary_round_aux_finite (xorb s1 s2) q e' (new_location (Z.pos m2) r))
    as (m & e & Hres & Hm53 & Hebound & Hup & Hlo).
  { change (2 ^ 52) with 4503599627370496 in Hqb. lia. }
  { lia. }
  { lia. }
  exists m, e. split; [done|]. split; [done|]. split; [lia|].
  assert (2 ^ (round_exp q e' - e') <= 2) as Hulp.
  { change 2 with (2 ^ 1) at 2. apply Z.pow_le_mono_r; lia. }
  assert (0 < 2 ^ (round_exp q e' - e')) by (apply Z.pow_pos_nonneg; lia).
  set (v := Z.pos m * 2 ^ (e - e')) in *.
  split; nia.
Qed.

Lemma of_int_signed s p :
  Z.pos p < 2 ^ 53 →
  ∃ m e, PyFloat.of_int (cond_Zopp s (Z.pos p)) = Ok (S754_finite s m e)
         ∧ 2 ^ 52 <= Z.pos m < 2 ^ 53
         ∧ e = Zdigits2 (Z.pos p) - 53
         ∧ Z.pos m = Z.pos p * 2 ^ (- e).
Proof.
  intros Hp. destruct (binary_round_exact s p Hp) as (m & e & Hr & Hm & He & Hv).
  exists m, e. split; [|done].
  unfold PyFloat.of_int, binary_normalize. destruct s; simpl; by rewrite Hr.
Qed.

(** The whole number at or above a positive float is positive and less than
    one above it. *)
Lemma ceil_mag_bounds m e ex :
  ex <= e → ex <= 0 →
  0 < PyFloat.ceil_mag m e
  ∧ (PyFloat.ceil_mag m e - 1) * 2 ^ (- ex) < Z.pos m * 2 ^ (e - ex)
  ∧ Z.pos m * 2 ^ (e - ex) <= PyFloat.ceil_mag m e * 2 ^ (- ex).
Proof.
  intros Hle Hex. unfold PyFloat.ceil_mag.
  assert (0 < 2 ^ (- ex)) as HS by (apply Z.pow_pos_nonneg; lia).
  assert (0 < 2 ^ (e - ex)) as HT by (apply Z.pow_pos_nonneg; lia).
  destruct (Z.leb_spec 0 e) as [He|He].
  - assert (0 < 2 ^ e) as HE by (apply Z.pow_pos_nonneg; lia).
    assert (2 ^ (e - ex) = 2 ^ e * 2 ^ (- ex)) as ->
      by (rewrite <- Z.pow_add_r by lia; f_equal; lia).
    nia.
  - assert (0 < 2 ^ (- e)) as HQ by (apply Z.pow_pos_nonneg; lia).
    assert (2 ^ (- ex) = 2 ^ (- e) * 2 ^ (e - ex)) as ->
      by (rewrite <- Z.pow_add_r by lia; f_equal; lia).
    pose proof (Z_div_mod_eq_full (Z.pos m + 2 ^ (- e) - 1) (2 ^ (- e))) as Hdm.
    pose proof (Z.mod_pos_bound (Z.pos m + 2 ^ (- e) - 1) (2 ^ (- e)) HQ) as Hr.
    set (c := (Z.pos m + 2 ^ (- e) - 1) / 2 ^ (- e)) in *.
    set (Q := 2 ^ (- e)) in *. set (T := 2 ^ (e - ex)) in *.
    assert (1 <= c) by nia.
    assert ((c - 1) * Q < Z.pos m) by nia.
    assert (Z.pos m <= c * Q) by nia.
    split; [lia|]. split; nia.
Qed.

(** The arithmetic of the conversion to nanoseconds: [P] is the scale of the
    quotient, [T] and [W] those of the rounded quotient and of the product. *)
Lemma nanoseconds_below p P T W m N :
  0 < p < 9223372036855 → 524288 <= P → 0 < T → 0 < W →
  W * T = 8388608 * P →
  1000 * (m * T) <= p * P + 2000 →
  (N - 1) * W < m * 8388608000000000 + 1024 * W →
  N < 9223372036854775808.
Proof.
  intros Hp HP HT HS HST Hm HN.
  destruct (Z.lt_ge_cases N 9223372036854775808) as [|Hge]; [done|]. exfalso.
  assert ((N - 1025) * W < m * 8388608000000000) as H1 by lia.
  assert ((N - 1025) * (W * T) < m * T * 8388608000000000) as H2.
  { apply (Z.mul_lt_mono_pos_r T) in H1; [|done]. lia. }
  rewrite HST in H2.
  assert ((N - 1025) * P * 1000 < 1000 * (m * T) * 1000000000) as H3 by lia.
  assert ((N - 1025) * P * 1000 < (p * P + 2000) * 1000000000) as H4.
  { eapply Z.lt_le_trans; [exact H3|].
    apply Z.mul_le_mono_nonneg_r; [lia | done]. }
  assert ((N - 1025 - 1000000 * p) * P < 2000000000) as H5 by lia.
  assert (774783 * 524288 <= (N - 1025 - 1000000 * p) * P) as H6.
  { apply Z.mul_le_mono_nonneg; lia. }
  lia.
Qed.

Lemma product_below p P T m :
  0 < p < 9223372036855 → 524288 <= P → 0 < T →
  1000 * (m * T) <= p * P + 2000 →
  m * 8388608000000000 * T < 77371252455336267181195264 * P.
Proof.
  intros Hp HP HT Hm.
  assert (1000 * (m * T) * 1000000000 <= (p * P + 2000) * 1000000000) as H1.
  { apply Z.mul_le_mono_nonneg_r; [lia | done]. }
  assert (775808 * 524288 <= (9223372036854775808 - 1000000 * p) * P) as H2.
  { apply Z.mul_le_mono_nonneg; lia. }
  lia.
Qed.

(** The nanoseconds of a delay of [p] milliseconds of either sign: the
    quotient by [1000.0] is finite with the sign of the delay, and its
    product with [1e9], rounded away from zero, is of magnitude below
    [2 ^ 63]. *)
Lemma sleep_nanoseconds s p :
  Z.pos p < 9223372036855 →
  ∃ m e N,
    PyFloat.int_div (cond_Zopp s (Z.pos p)) PyFloat.lit_1000_0
    = Ok (S754_finite s m e)
    ∧ PyFloat.round_away (PyFloat.mul (S754_finite s m e) PyFloat.lit_1e9)
      = Ok (cond_Zopp s N)
    ∧ 0 < N < 2 ^ 63.
Proof.
  intros Hp.
  assert (Z.pos p < 2 ^ 44) as Hp44 by (change (2 ^ 44) with 17592186044416; lia).
  assert (Z.pos p < 2 ^ 53) as Hp53 by (change (2 ^ 53) with 9007199254740992; lia).
  destruct (of_int_signed s p Hp53) as (m0 & e0 & Hof & Hm0 & He0 & Hv0).
  pose proof (Zdigits2_le (Z.pos p) 44 ltac:(lia) ltac:(lia) Hp44) as Hd44.
  pose proof (Zdigits2_lower (Z.pos p) ltac:(lia)) as Hdlow.
  assert (1 <= Zdigits2 (Z.pos p)) as Hd1 by (simpl; lia).
  set (D := Zdigits2 (Z.pos p)) in *.
  destruct (SFdiv_value s m0 e0 false 8796093022208000 (-43))
    as (m & e & Hdiv & _ & He & Hup & _);
    [done | vm_compute; split; [discriminate | reflexivity] | lia |].
  rewrite xorb_false_r in Hdiv.
  exists m, e.
  replace (e0 - -43 - 53) with (D - 63) in * by lia.
  set (T := 2 ^ (e - (D - 63))) in *.
  set (P := 2 ^ (63 - D)).
  assert (0 < T) as HT by (apply Z.pow_pos_nonneg; lia).
  assert (524288 <= P) as HP.
  { change 524288 with (2 ^ 19). apply Z.pow_le_mono_r; lia. }
  assert (1000 * (Z.pos m * T) <= Z.pos p * P + 2000) as Hmq.
  { assert (Z.pos m0 * 2 ^ 53 = Z.pos p * P * 8796093022208) as Hscale.
    { rewrite Hv0. change 8796093022208 with (2 ^ 43).
      rewrite <- !Z.mul_assoc. f_equal. unfold P.
      rewrite <- !Z.pow_add_r by lia. f_equal. lia. }
    rewrite Hscale in Hup. lia. }
  set (ex := e + -23).
  set (W := 2 ^ (- ex)).
  assert (0 < W) as HS by (apply Z.pow_pos_nonneg; lia).
  assert (W * T = 8388608 * P) as HST.
  { unfold W, T, P, ex. change 8388608 with (2 ^ 23).
    rewrite <- !Z.pow_add_r by lia. f_equal. lia. }
  set (mx := Z.pos (m * 8388608000000000)).
  assert (mx = Z.pos m * 8388608000000000) as Hmx by (unfold mx; lia).
  assert (mx < 2 ^ (63 - ex)) as Hmxlt.
  { pose proof (product_below (Z.pos p) P T (Z.pos m) ltac:(lia) HP HT Hmq) as Hpb.
    rewrite <- Hmx in Hpb.
    assert (2 ^ (63 - ex) * T = 77371252455336267181195264 * P) as Hpow.
    { unfold T, P, ex. change 77371252455336267181195264 with (2 ^ 86).
      rewrite <- !Z.pow_add_r by lia. f_equal. lia. }
    apply (Z.mul_lt_mono_pos_r T); [done|]. lia. }
  pose proof (Zdigits2_le mx (63 - ex) ltac:(lia) ltac:(lia) Hmxlt) as Hdig.
  pose proof (Zdigits2_nonneg mx ltac:(lia)) as Hdig0.
  assert (ex <= round_exp mx ex <= 10) as Hre.
  { unfold round_exp. rewrite fexp_eq. lia. }
  destruct (binary_round_aux_finite (xorb s false) mx ex loc_Exact)
    as (md & ed & Hmul & _ & Hed & Hupd & _); [lia | lia | lia |].
  rewrite xorb_false_r in Hmul.
  destruct (ceil_mag_bounds md ed ex ltac:(lia) ltac:(lia)) as (Hc0 & Hc1 & _).
  exists (PyFloat.ceil_mag md ed).
  split; [|split; [|split; [done|]]].
  - unfold PyFloat.int_div. rewrite Hof.
    change (Ok (SFdiv PyFloat.prec PyFloat.emax (S754_finite s m0 e0)
                  (S754_finite false 8796093022208000 (-43)))
            = Ok (S754_finite s m e)).
    by rewrite Hdiv.
  - unfold PyFloat.mul, PyFloat.lit_1e9, SFmul. fold mx. fold ex.
    rewrite xorb_false_r, Hmul. done.
  - change (2 ^ 63) with 9223372036854775808.
    assert (2 ^ (round_exp mx ex - ex) <= 1024 * W) as Hulp.
    { change 1024 with (2 ^ 10). unfold W. rewrite <- Z.pow_add_r by lia.
      apply Z.pow_le_mono_r; lia. }
    apply (nanoseconds_below (Z.pos p) P T W (Z.pos m) _ ltac:(lia) HP HT HS HST Hmq).
    fold W in Hc1. rewrite <- Hmx. lia.
Qed.

(** A delay of 0 to 9223372036854 milliseconds is accepted: its nanoseconds
    fit 64 bits. *)
Lemma delay_of_ok wait_ms :
  0 <= wait_ms < 9223372036855 → ∃ secs, delay_of wait_ms = Ok secs.
Proof.
  intros Hw. destruct wait_ms as [|p|p]; [by eexists | | lia].
  destruct (sleep_nanoseconds false p ltac:(lia)) as (m & e & N & Hdiv & Hns & HN).
  exists (S754_finite false m e). unfold delay_of.
  simpl cond_Zopp in Hdiv, Hns. rewrite Hdiv.
  change (match sleep_error (S754_finite false m e) with
          | Some err => Raise err
          | None => Ok (S754_finite false m e)
          end = Ok (S754_finite false m e)).
  unfold sleep_error. rewrite Hns.
  destruct (Z.leb_spec (- 2 ^ 63) N); [|lia].
  destruct (Z.ltb_spec N (2 ^ 63)); [|lia].
  destruct (Z.ltb_spec N 0); [lia|done].
Qed.

(** A negative delay down to -9223372036854 milliseconds is refused for its
    sign. *)
Lemma delay_of_negative wait_ms :
  -9223372036855 < wait_ms < 0 → delay_of wait_ms = Raise ValueError.
Proof.
  intros Hw. destruct wait_ms as [|p|p]; [lia | lia |].
  destruct (sleep_nanoseconds true p ltac:(lia)) as (m & e & N & Hdiv & Hns & HN).
  unfold delay_of. simpl cond_Zopp in Hdiv, Hns.
  change (- Z.pos p) with (Z.neg p) in Hdiv. rewrite Hdiv.
  change (match sleep_error (S754_finite true m e) with
          | Some err => Raise err
          | None => Ok (S754_finite true m e)
          end = Raise ValueError).
  unfold sleep_error. rewrite Hns.
  destruct (Z.leb_spec (- 2 ^ 63) (- N)); [|lia].
  destruct (Z.ltb_spec (- N) (2 ^ 63)); [|lia].
  destruct (Z.ltb_spec (- N) 0); [done|lia].
Qed.

(** The unit of the rounding exponent of a number of at least 53 bits is at
    most that number over [2 ^ 52]. *)
Lemma round_ulp_le mx ex :
  2 ^ 52 <= mx → -1074 <= ex → 2 ^ (round_exp mx ex - ex) * 2 ^ 52 <= mx.
Proof.
  intros Hmx Hex.
  assert (0 < mx) as Hpos by (change (2 ^ 52) with 4503599627370496 in Hmx; lia).
  pose proof (Zdigits2_lower mx Hpos) as Hlow.
  assert (53 <= Zdigits2 mx) as Hd.
  { destruct (Z.le_gt_cases 53 (Zdigits2 mx)) as [|Hlt]; [done|].
    pose proof (Zdigits2_upper mx ltac:(lia)) as Hup.
    assert (2 ^ Zdigits2 mx <= 2 ^ 52) by (apply Z.pow_le_mono_r; lia). lia. }
  assert (round_exp mx ex - ex = Zdigits2 mx - 53) as ->
    by (unfold round_exp; rewrite fexp_eq; lia).
  rewrite <- Z.pow_add_r by lia.
  by replace (Zdigits2 mx - 53 + 52) with (Zdigits2 mx - 1) by lia.
Qed.

(** The arithmetic of a delay beyond the 64-bit range, for an integer [p] of
    [d] bits whose quotient by 1000 was rounded at [t] above the division
    exponent: [u] is the unit of the rounded product [v]. *)
Lemma nanoseconds_above p m mx u v N (d t : Z) :
  44 <= d <= 53 → 0 <= t <= 2 → 2 ^ (d - 1) <= p → 9223372036855 <= p →
  p * 2 ^ (63 - d) < 1000 * (m * 2 ^ t) + 3000 →
  mx = m * 8388608000000000 →
  u * 2 ^ 52 <= mx → mx < v + u → v <= N * 2 ^ (86 - d - t) →
  2 ^ 63 < N.
Proof.
  intros Hd Ht Hp1 Hp2 Hm Hmx Hu Hv HN.
  assert (d = 44 ∨ d = 45 ∨ d = 46 ∨ d = 47 ∨ d = 48 ∨ d = 49 ∨ d = 50 ∨ d = 51
          ∨ d = 52 ∨ d = 53) as Hcases by lia.
  assert (t = 0 ∨ t = 1 ∨ t = 2) as Htc by lia.
  clear Hd Ht.
  destruct Hcases as [->|[->|[->|[->|[->|[->|[->|[->|[->| ->]]]]]]]]];
    destruct Htc as [->|[->| ->]]; lia.
Qed.

(** The nanoseconds of a delay of [p] milliseconds of either sign, from
    9223372036855 on and below [2 ^ 53]: their magnitude exceeds
    [2 ^ 63]. *)
Lemma sleep_nanoseconds_beyond s p :
  9223372036855 <= Z.pos p < 2 ^ 53 →
  ∃ m e N,
    PyFloat.int_div (cond_Zopp s (Z.pos p)) PyFloat.lit_1000_0
    = Ok (S754_finite s m e)
    ∧ PyFloat.round_away (PyFloat.mul (S754_finite s m e) PyFloat.lit_1e9)
      = Ok (cond_Zopp s N)
    ∧ 2 ^ 63 < N.
Proof.
  intros [Hlo Hp53].
  destruct (of_int_signed s p Hp53) as (m0 & e0 & Hof & Hm0 & He0 & Hv0).
  pose proof (Zdigits2_le (Z.pos p) 53 ltac:(lia) ltac:(lia) Hp53) as Hd53.
  pose proof (Zdigits2_lower (Z.pos p) ltac:(lia)) as Hdlow.
  pose proof (Zdigits2_upper (Z.pos p) ltac:(lia)) as Hdup.
  set (D := Zdigits2 (Z.pos p)) in *.
  assert (44 <= D) as Hd44.
  { destruct (Z.le_gt_cases 44 D) as [|Hlt]; [done|].
    assert (2 ^ D <= 2 ^ 43) by (apply Z.pow_le_mono_r; lia).
    change (2 ^ 43) with 8796093022208 in *. lia. }
  destruct (SFdiv_value s m0 e0 false 8796093022208000 (-43))
    as (m & e & Hdiv & Hm53 & He & _ & Hlow);
    [done | vm_compute; split; [discriminate | reflexivity] | lia |].
  rewrite xorb_false_r in Hdiv.
  exists m, e.
  replace (e0 - -43 - 53) with (D - 63) in * by lia.
  set (t := e - (D - 63)) in *.
  assert (Z.pos p * 2 ^ (63 - D) < 1000 * (Z.pos m * 2 ^ t) + 3000) as Hmq.
  { assert (Z.pos m0 * 2 ^ 53 = Z.pos p * 2 ^ (63 - D) * 8796093022208) as Hscale.
    { rewrite Hv0. change 8796093022208 with (2 ^ 43).
      rewrite <- !Z.mul_assoc. f_equal.
      rewrite <- !Z.pow_add_r by lia. f_equal. lia. }
    rewrite Hscale in Hlow. lia. }
  set (ex := e + -23).
  set (mx := Z.pos (m * 8388608000000000)).
  assert (mx = Z.pos m * 8388608000000000) as Hmx by (unfold mx; lia).
  assert (2 ^ 52 <= mx) as Hmx52.
  { change (2 ^ 52) with 4503599627370496. lia. }
  assert (mx < 2 ^ 106) as Hmx106.
  { change (2 ^ 106) with (2 ^ 53 * 2 ^ 53). rewrite Hmx.
    change (2 ^ 53) with 9007199254740992 in *. nia. }
  pose proof (Zdigits2_le mx 106 ltac:(lia) ltac:(lia) Hmx106) as Hdig.
  pose proof (Zdigits2_nonneg mx ltac:(lia)) as Hdig0.
  assert (ex <= round_exp mx ex <= 900) as Hre.
  { unfold round_exp. rewrite fexp_eq. lia. }
  destruct (binary_round_aux_finite (xorb s false) mx ex loc_Exact)
    as (md & ed & Hmul & _ & Hed & _ & Hlowd); [lia | lia | lia |].
  rewrite xorb_false_r in Hmul.
  pose proof (round_ulp_le mx ex Hmx52 ltac:(lia)) as Hulp.
  destruct (ceil_mag_bounds md ed ex ltac:(lia) ltac:(lia)) as (_ & _ & Hceil).
  exists (PyFloat.ceil_mag md ed).
  split; [|split].
  - unfold PyFloat.int_div. rewrite Hof.
    change (Ok (SFdiv PyFloat.prec PyFloat.emax (S754_finite s m0 e0)
                  (S754_finite false 8796093022208000 (-43)))
            = Ok (S754_finite s m e)).
    by rewrite Hdiv.
  - unfold PyFloat.mul, PyFloat.lit_1e9, SFmul. fold mx. fold ex.
    rewrite xorb_false_r, Hmul. done.
  - apply (nanoseconds_above (Z.pos p) (Z.pos m) mx
             (2 ^ (round_exp mx ex - ex)) (Z.pos md * 2 ^ (ed - ex)) _ D t);
      try done; try lia.
    replace (86 - D - t) with (- ex) by (unfold ex, t; lia). done.
Qed.

(** A delay from 9223372036855 milliseconds on, of either sign, is refused
    for its size. *)
Lemma delay_of_beyond wait_ms :
  9223372036855 <= Z.abs wait_ms < 2 ^ 53 → delay_of wait_ms = Raise OverflowError.
Proof.
  intros Hw.
  assert (∃ s p, wait_ms = cond_Zopp s (Z.pos p) ∧ 9223372036855 <= Z.pos p < 2 ^ 53)
    as (s & p & -> & Hp).
  { destruct wait_ms as [|p|p]; [simpl in Hw; lia | |].
    - exists false, p. split; [done|]. simpl in Hw. lia.
    - exists true, p. split; [done|]. simpl in Hw. lia. }
  destruct (sleep_nanoseconds_beyond s p Hp) as (m & e & N & Hdiv & Hns & HN).
  unfold delay_of. rewrite Hdiv.
  change (match sleep_error (S754_finite s m e) with
          | Some err => Raise err
          | None => Ok (S754_finite s m e)
          end = Raise OverflowError).
  unfold sleep_error. rewrite Hns.
  destruct s; simpl cond_Zopp.
  - destruct (Z.leb_spec (- 2 ^ 63) (- N)); [lia|]. done.
  - destruct (Z.leb_spec (- 2 ^ 63) N); [|lia].
    destruct (Z.ltb_spec N (2 ^ 63)); [lia|]. done.
Qed.

End Sleep.



(** ** Packed colours *)

Section Packing.

Lemma lor_lt_pow2 a b n : 0 <= a < 2 ^ n → 0 <= b < 2 ^ n → 0 <= Z.lor a b < 2 ^ n.
Proof.
  intros [Ha Han] [Hb Hbn].
  assert (0 <= Z.lor a b) as Hnn by (apply Z.lor_nonneg; lia).
  split; [done|].
  destruct (Z.eq_dec (Z.lor a b) 0) as [->|Hne]; [lia|].
  apply Z.log2_lt_pow2; [lia|].
  rewrite Z.log2_lor by done.
  destruct (Z.eq_dec a 0) as [->|Ha0]; destruct (Z.eq_dec b 0) as [->|Hb0].
  - simpl in Hne. done.
  - simpl Z.log2 at 1. assert (Z.log2 b < n) by (apply Z.log2_lt_pow2; lia).
    pose proof (Z.log2_nonneg b). lia.
  - simpl Z.log2 at 2. assert (Z.log2 a < n) by (apply Z.log2_lt_pow2; lia).
    pose proof (Z.log2_nonneg a). lia.
  - assert (Z.log2 a < n) by (apply Z.log2_lt_pow2; lia).
    assert (Z.log2 b < n) by (apply Z.log2_lt_pow2; lia). lia.
Qed.

Lemma shiftr_small a n : 0 <= a < 2 ^ n → 0 <= n → Z.shiftr a n = 0.
Proof. intros Ha Hn. rewrite Z.shiftr_div_pow2 by done. apply Z.div_small. lia. Qed.

Lemma land_255_small a : 0 <= a < 256 → Z.land a 255 = a.
Proof.
  intros Ha. change 255 with (Z.ones 8). rewrite Z.land_ones by lia.
  apply Z.mod_small. lia.
Qed.

Lemma land_255_shiftl a : Z.land (Z.shiftl a 8) 255 = 0.
Proof.
  change 255 with (Z.ones 8). rewrite Z.land_ones by lia.
  rewrite Z.shiftl_mul_pow2 by lia. apply Z.mod_mul. lia.
Qed.

(** Channels within a byte are packed without loss into 24 bits. *)
Lemma Color_channels r g b :
  0 <= r < 256 → 0 <= g < 256 → 0 <= b < 256 →
  red_of (Color r g b) = r ∧ green_of (Color r g b) = g
  ∧ blue_of (Color r g b) = b ∧ 0 <= Color r g b < 2 ^ 24.
Proof.
  intros Hr Hg Hb. unfold red_of, green_of, blue_of, Color.
  rewrite Z.shiftl_0_l, Z.lor_0_l.
  repeat split.
  - rewrite !Z.shiftr_lor.
    rewrite (Z.shiftr_shiftl_l r 16 16) by lia.
    rewrite (Z.shiftr_shiftl_r g 8 16) by lia.
    rewrite (shiftr_small b 16) by lia.
    rewrite (shiftr_small g (16 - 8)) by lia.
    rewrite Z.sub_diag, Z.shiftl_0_r, !Z.lor_0_r. by apply land_255_small.
  - rewrite !Z.shiftr_lor.
    rewrite (Z.shiftr_shiftl_l r 16 8) by lia.
    rewrite (Z.shiftr_shiftl_l g 8 8) by lia.
    rewrite (shiftr_small b 8) by lia.
    rewrite Z.sub_diag, Z.shiftl_0_r, Z.lor_0_r.
    rewrite Z.land_lor_distr_l. change (16 - 8) with 8.
    rewrite land_255_shiftl, Z.lor_0_l. by apply land_255_small.
  - rewrite !Z.land_lor_distr_l.
    replace (Z.shiftl r 16) with (Z.shiftl (Z.shiftl r 8) 8)
      by (rewrite Z.shiftl_shiftl by lia; done).
    rewrite !land_255_shiftl, !Z.lor_0_l. by apply land_255_small.
  - apply Z.lor_nonneg. split; [|lia]. apply Z.lor_nonneg.
    split; apply Z.shiftl_nonneg; lia.
  - apply lor_lt_pow2; [apply lor_lt_pow2|lia];
      rewrite Z.shiftl_mul_pow2 by lia; lia.
Qed.

End Packing.
(** * Verification *)

(** ** Traces: what a run of calls does to the controller *)

Section Traces.

Lemma after_app evs1 evs2 self :
  after (evs1 ++ evs2) self = after evs2 (after evs1 self).
Proof. unfold after. apply foldl_app. Qed.

Lemma trace_after evs self : trace (after evs self) = trace self ++ evs.
Proof.
  revert self. induction evs as [|ev evs IH]; intros self; simpl.
  - by rewrite app_nil_r.
  - rewrite IH. simpl. by rewrite <- app_assoc.
Qed.

Lemma num_pixels_after evs self : _num_pixels (after evs self) = _num_pixels self.
Proof.
  revert self. induction evs as [|ev evs IH]; intros self; simpl; [done|].
  by rewrite IH.
Qed.

Lemma leds_after evs self :
  leds (_strip (after evs self)) = replay evs (leds (_strip self)).
Proof.
  revert self. induction evs as [|ev evs IH]; intros self; simpl; [done|].
  rewrite IH. by destruct ev.
Qed.

Lemma shown_after evs self :
  shown (_strip (after evs self))
  = shown (_strip self) ++ frames evs (leds (_strip self)).
Proof.
  revert self. induction evs as [|ev evs IH]; intros self; simpl.
  - by rewrite app_nil_r.
  - rewrite IH. destruct ev; simpl; try done. by rewrite <- app_assoc.
Qed.




Lemma frames_app evs1 evs2 buf :
  frames (evs1 ++ evs2) buf = frames evs1 buf ++ frames evs2 (replay evs1 buf).
Proof.
  revert buf. induction evs1 as [|ev evs1 IH]; intros buf; simpl; [done|].
  destruct ev; simpl; by rewrite ?IH.
Qed.




Lemma performs_ret self : performs (mret ()) self [].
Proof. done. Qed.

Lemma performs_perform ev self : performs (perform ev) self [ev].
Proof. done. Qed.

Lemma performs_bind (m : M ()) (k : M ()) self evs1 evs2 :
  performs m self evs1 →
  performs k (after evs1 self) evs2 →
  performs (m ;; k) self (evs1 ++ evs2).
Proof.
  unfold performs. intros H1 H2.
  unfold mbind, M_bind. rewrite H1, H2. by rewrite after_app.
Qed.

Lemma performs_lift {A} (r : result A) (k : A → M ()) (a : A) self evs :
  r = Ok a →
  performs (k a) self evs →
  performs (x ← lift r; k x) self evs.
Proof. unfold performs. intros -> H. unfold mbind, M_bind, lift. done. Qed.

Lemma performs_num_pixels (k : Z → M ()) self evs :
  performs (k (_num_pixels self)) self evs →
  performs (n ← num_pixels; k n) self evs.
Proof. done. Qed.

(** A loop whose body makes the calls [f x] at [x], whatever the state. *)
Lemma performs_for_each {A} (n : Z) (xs : list A) (body : A → M ())
    (f : A → list event) self :
  (∀ x s, x ∈ xs → _num_pixels s = n → performs (body x) s (f x)) →
  _num_pixels self = n →
  performs (for_each xs body) self (concat (f <$> xs)).
Proof.
  revert self. induction xs as [|x xs IH]; intros self Hbody Hn; simpl.
  - apply performs_ret.
  - apply performs_bind.
    + apply Hbody; [left | done].
    + apply IH; [| by rewrite num_pixels_after].
      intros y s Hy. apply Hbody. by right.
Qed.

Lemma performs_for_each_fmap {A B} (n : Z) (g : A → B) (xs : list A)
    (body : B → M ()) (f : A → list event) self :
  (∀ x s, x ∈ xs → _num_pixels s = n → performs (body (g x)) s (f x)) →
  _num_pixels self = n →
  performs (for_each (g <$> xs) body) self (concat (f <$> xs)).
Proof.
  revert self. induction xs as [|x xs IH]; intros self Hbody Hn; simpl.
  - apply performs_ret.
  - apply performs_bind.
    + apply Hbody; [left | done].
    + apply IH; [| by rewrite num_pixels_after].
      intros y s Hy. apply Hbody. by right.
Qed.

End Traces.

(** ** Iteration lemmas *)

Section Iteration.

Lemma range_up (start stop : Z) :
  range start stop 1
  = (λ i : nat, start + Z.of_nat i) <$> seq 0 (Z.to_nat (stop - start)).
Proof.
  unfold range. simpl.
  assert (Z.to_nat (if start <? stop then (stop - start - 1) / 1 + 1 else 0)
          = Z.to_nat (stop - start)) as ->.
  { destruct (Z.ltb_spec start stop); [rewrite Z.div_1_r|]; lia. }
  apply list_fmap_ext. intros _ i _. lia.
Qed.

Lemma range_down (start stop : Z) :
  range start stop (-1)
  = (λ i : nat, start - Z.of_nat i) <$> seq 0 (Z.to_nat (start - stop)).
Proof.
  unfold range. simpl. change (- (-1)) with 1.
  assert (Z.to_nat (if stop <? start then (start - stop - 1) / 1 + 1 else 0)
          = Z.to_nat (start - stop)) as ->.
  { destruct (Z.ltb_spec stop start); [rewrite Z.div_1_r|]; lia. }
  apply list_fmap_ext. intros _ i _. lia.
Qed.


Lemma enumerate_from_fmap_seq {A} (f : nat → A) (k : Z) (s n : nat) :
  enumerate_from k (f <$> seq s n)
  = (λ i : nat, (k + Z.of_nat i - Z.of_nat s, f i)) <$> seq s n.
Proof.
  revert k s. induction n as [|n IH]; intros k s; simpl; [done|].
  f_equal; [f_equal; lia|].
  rewrite IH. apply list_fmap_ext. intros _ i _. f_equal. lia.
Qed.

Lemma enumerate_fmap_seq {A} (f : nat → A) (n : nat) :
  enumerate (f <$> seq 0 n) = (λ i : nat, (Z.of_nat i, f i)) <$> seq 0 n.
Proof.
  unfold enumerate. rewrite enumerate_from_fmap_seq.
  apply list_fmap_ext. intros _ i _. f_equal. lia.
Qed.

Lemma concat_fmap_singleton {A B} (f : A → B) (xs : list A) :
  concat ((λ x, [f x]) <$> xs) = f <$> xs.
Proof. induction xs as [|x xs IH]; simpl; [done | by f_equal]. Qed.

End Iteration.

(** ** The values the patterns compute *)

Section Values.

(** On the six colours of the program the double-precision products agree
    with exact integer arithmetic at every tenth. *)
Lemma shade_tenths color k : 0 <= k <= 10 → shade color k = Ok (tenths color k).
Proof.
  intros Hk.
  assert (k = 0 ∨ k = 1 ∨ k = 2 ∨ k = 3 ∨ k = 4 ∨ k = 5 ∨ k = 6 ∨ k = 7
          ∨ k = 8 ∨ k = 9 ∨ k = 10) as Hcases by lia.
  destruct color;
    repeat (destruct Hcases as [->|Hcases]; [vm_compute; reflexivity|]);
    subst k; vm_compute; reflexivity.
Qed.

Lemma alter_brightness_full color :
  alter_brightness color PyFloat.lit_1_0 = Ok (value color).
Proof. destruct color; vm_compute; reflexivity. Qed.

Lemma tenths_full color : tenths color 10 = value color.
Proof. destruct color; vm_compute; reflexivity. Qed.

Lemma int_truediv_10 k : PyFloat.int_truediv k 10 = PyFloat.int_div k PyFloat.lit_10_0.
Proof. reflexivity. Qed.

Lemma performs_show_with_delay wait_ms secs self :
  delay_of wait_ms = Ok secs →
  performs (_show_with_delay wait_ms) self [EvShow; EvSleep secs].
Proof.
  unfold delay_of, _show_with_delay. intros Hd.
  apply (performs_bind _ _ _ [EvShow] [EvSleep secs]); [apply performs_perform|].
  destruct (PyFloat.int_div wait_ms PyFloat.lit_1000_0) as [s|e]; [|done].
  simpl in Hd. apply (performs_lift _ _ s); [done|].
  unfold time_sleep. destruct (sleep_error s); [done|].
  injection Hd as ->. apply performs_perform.
Qed.

(** Whatever the delay, [_show_with_delay] flushes the strip first; what
    follows is at most the delay, when [time.sleep] accepts it. *)
Lemma trace_show_with_delay wait_ms self :
  ∃ tail,
    trace (_show_with_delay wait_ms self).2 = trace self ++ EvShow :: tail
    ∧ Forall (λ ev, ∃ secs, ev = EvSleep secs) tail.
Proof.
  unfold _show_with_delay, mbind, M_bind, perform, lift, time_sleep.
  destruct (PyFloat.int_div wait_ms PyFloat.lit_1000_0) as [secs|err].
  - destruct (sleep_error secs) as [err|].
    + exists []. split; [done | constructor].
    + exists [EvSleep secs]. split; [|repeat constructor; by eexists].
      simpl. by rewrite <- app_assoc.
  - exists []. split; [done | constructor].
Qed.

Lemma performs_set_pixel_color index color brightness c self :
  alter_brightness color brightness = Ok c →
  performs (_set_pixel_color index color brightness) self [EvSetPixelColor index c].
Proof.
  intros Hc. unfold _set_pixel_color.
  apply (performs_lift _ _ c); [done | apply performs_perform].
Qed.

End Values.

(** ** draw_and_erase: the calls it makes *)

Section DrawAndErase.

Lemma performs_draw_and_erase_step color wait_ms secs led_idx self :
  delay_of wait_ms = Ok secs →
  performs (draw_and_erase_step color wait_ms led_idx) self
    (head_events color secs led_idx).
Proof.
  intros Hd. unfold draw_and_erase_step, head_events.
  apply performs_bind; [|apply performs_bind].
  - rewrite range_down, enumerate_fmap_seq.
    unfold fade_events.
    rewrite <- (concat_fmap_singleton
                  (λ j : nat, EvSetPixelColor (led_idx - Z.of_nat j)
                                (tenths color (10 - Z.of_nat j)))).
    apply (performs_for_each_fmap (_num_pixels self)); [|done].
    intros j s Hj _. apply elem_of_seq in Hj. simpl.
    pose proof (shade_tenths color (10 - Z.of_nat j)) as Hs.
    unfold shade in Hs.
    destruct (PyFloat.int_div (10 - Z.of_nat j) PyFloat.lit_10_0) as [b|e] eqn:Hb.
    + apply (performs_lift _ _ b); [done|].
      apply performs_set_pixel_color. apply Hs. lia.
    + assert (0 <= 10 - Z.of_nat j <= 10) as Hr by lia.
      specialize (Hs Hr). discriminate Hs.
  - unfold clear_events. destruct (0 <? Z.max (led_idx - 10) 0).
    + apply performs_set_pixel_color, alter_brightness_full.
    + apply performs_ret.
  - by apply performs_show_with_delay.
Qed.

Lemma performs_pass color wait_ms secs heads self :
  delay_of wait_ms = Ok secs →
  performs (for_each heads (draw_and_erase_step color wait_ms)) self
    (pass_events color secs heads).
Proof.
  intros Hd. apply (performs_for_each (_num_pixels self)); [|done].
  intros led_idx s _ _. by apply performs_draw_and_erase_step.
Qed.

(** The whole method: an upward pass in [eraser], then a downward pass in
    [draw_color]. *)
Lemma performs_draw_and_erase draw_color eraser wait_ms secs self :
  delay_of wait_ms = Ok secs →
  performs (draw_and_erase draw_color eraser wait_ms) self
    (pass_events eraser secs (range 0 (_num_pixels self) 1)
     ++ pass_events draw_color secs (range (_num_pixels self) 0 (-1))).
Proof.
  intros Hd. unfold draw_and_erase. apply performs_num_pixels.
  cbn [enumerate enumerate_from for_each].
  apply performs_bind; [by apply performs_pass|].
  rewrite <- (app_nil_r (pass_events draw_color _ _)).
  apply performs_bind; [|apply performs_ret].
  change (0 + 1) with 1. rewrite decide_True by done.
  by apply performs_pass.
Qed.

End DrawAndErase.

(** ** Frames: what is on the strip at each flush *)

Section Frames.

Lemma frames_writes writes buf : Forall is_write writes → frames writes buf = [].
Proof.
  intros Hw. revert buf. induction Hw as [|ev evs Hev _ IH]; intros buf; [done|].
  destruct ev; try done. simpl. apply IH.
Qed.

Lemma frames_block writes secs buf :
  Forall is_write writes →
  frames (writes ++ [EvShow; EvSleep secs]) buf = [replay writes buf].
Proof. intros Hw. rewrite frames_app, frames_writes by done. done. Qed.




Lemma length_frames_blocks blocks buf :
  Forall is_frame_block blocks → length (frames (concat blocks) buf) = length blocks.
Proof.
  intros Hb. revert buf.
  induction Hb as [|b blocks (w & s & -> & Hw) _ IH]; intros buf; simpl; [done|].
  rewrite frames_app, frames_block by done. simpl. by rewrite IH.
Qed.










End Frames.

(** ** pulse, christmas_colors and vapor_trail: the calls they make *)

Section Patterns.

Lemma performs_pulse_frame color wait_ms secs k self :
  delay_of wait_ms = Ok secs → 0 <= k <= 10 →
  performs (pulse_frame color wait_ms k) self
    (pulse_frame_events color secs (_num_pixels self) k).
Proof.
  intros Hd Hk. unfold pulse_frame, pulse_frame_events.
  apply performs_num_pixels.
  apply performs_bind; [|by apply performs_show_with_delay].
  rewrite range_up, Z.sub_0_r.
  rewrite <- (concat_fmap_singleton
                (λ i : nat, EvSetPixelColor (Z.of_nat i) (tenths color k))).
  apply (performs_for_each_fmap (_num_pixels self)); [|done].
  intros i s _ _. simpl.
  pose proof (shade_tenths color k Hk) as Hs. unfold shade in Hs.
  rewrite int_truediv_10.
  destruct (PyFloat.int_div k PyFloat.lit_10_0) as [b|e]; [|discriminate Hs].
  apply (performs_lift _ _ b); [done|].
  by apply performs_set_pixel_color.
Qed.

Lemma performs_pulse_loop color wait_ms secs levels self :
  delay_of wait_ms = Ok secs →
  Forall (λ k, 0 <= k <= 10) levels →
  performs (for_each levels (pulse_frame color wait_ms)) self
    (concat (pulse_frame_events color secs (_num_pixels self) <$> levels)).
Proof.
  intros Hd Hl. apply (performs_for_each (_num_pixels self)); [|done].
  intros k s Hk <-. apply performs_pulse_frame; [done|].
  by apply (proj1 (Forall_forall _ _) Hl).
Qed.

Lemma performs_pulse color wait_ms secs self :
  delay_of wait_ms = Ok secs →
  performs (pulse color wait_ms) self
    (concat (pulse_frame_events color secs (_num_pixels self) <$> pulse_levels)).
Proof.
  intros Hd. unfold pulse.
  change pulse_levels with (range 1 10 1 ++ range 10 1 (-1)).
  rewrite fmap_app, concat_app.
  apply performs_bind.
  - apply performs_pulse_loop; [done|].
    vm_compute; repeat constructor; discriminate.
  - pose proof (performs_pulse_loop color wait_ms secs (range 10 1 (-1))
                  (after (concat (pulse_frame_events color secs (_num_pixels self)
                                    <$> range 1 10 1)) self) Hd) as Hloop.
    rewrite num_pixels_after in Hloop. apply Hloop.
    vm_compute; repeat constructor; discriminate.
Qed.

End Patterns.

Section Christmas.

Lemma christmas_values :
  alter_brightness PURE_WHITE PyFloat.lit_0_4 = Ok (Color 102 102 102)
  ∧ alter_brightness CRYSTAL_RED PyFloat.lit_0_4 = Ok (Color 102 0 0)
  ∧ alter_brightness CRYSTAL_GREEN PyFloat.lit_0_4 = Ok (Color 0 102 0).
Proof. repeat split; vm_compute; reflexivity. Qed.


End Christmas.

Section VaporTrail.

(** The trail colours exist whenever the trail length converts to a float. *)
Lemma brightened_ok color offset trail :
  0 <= offset < 2 ^ 53 → 0 < trail < 2 ^ 53 →
  ∃ v, brightened color offset trail = Ok v.
Proof.
  intros Ho Ht. unfold brightened.
  destruct (int_div_float_ok offset trail Ho Ht) as (d & b & -> & Hb & Hsmall).
  simpl. rewrite Hb. simpl. by apply (alter_brightness_ok color false 54).
Qed.

Lemma trail_values_exist color trail :
  0 <= trail < 2 ^ 53 →
  ∃ vs : list Z,
    Z.of_nat (length vs) = trail
    ∧ ∀ (offset : nat) v, vs !! offset = Some v →
                          brightened color (Z.of_nat offset) trail = Ok v.
Proof.
  intros Ht.
  assert (∀ n : nat, Z.of_nat n <= trail →
            ∃ vs : list Z, length vs = n
              ∧ ∀ (offset : nat) v, vs !! offset = Some v →
                  brightened color (Z.of_nat offset) trail = Ok v) as Hgen.
  { induction n as [|n IH]; intros Hn.
    - exists []. split; [done|]. intros offset v Hv. done.
    - destruct IH as (vs & Hlen & Hvs); [lia|].
      destruct (brightened_ok color (Z.of_nat n) trail) as [v Hv]; [lia|lia|].
      exists (vs ++ [v]). split; [rewrite length_app; simpl; lia|].
      intros offset w Hw. apply lookup_app_Some in Hw as [Hw|[Hge Hw]].
      + by apply Hvs.
      + apply list_lookup_singleton_Some in Hw as [Hoff <-].
        replace offset with n by lia. done. }
  destruct (Hgen (Z.to_nat trail)) as (vs & Hlen & Hvs); [lia|].
  exists vs. split; [lia | done].
Qed.

Lemma performs_trail_loop color trail n h (body_ix : Z → Z) vs (start : nat) self :
  (∀ (offset : nat) v, vs !! offset = Some v →
     brightened color (Z.of_nat (start + offset)) trail = Ok v) →
  performs
    (for_each
       (enumerate_from (Z.of_nat start)
          ((λ i : nat, body_ix (Z.of_nat i)) <$> seq start (length vs)))
       (λ '(offset, trail_idx),
          t ← lift (PyFloat.of_int trail);
          brightness ← lift (PyFloat.int_div offset t);
          _set_pixel_color ((h + offset) `mod` n) color brightness))
    self
    (imap (λ (offset : nat) v,
             EvSetPixelColor ((h + Z.of_nat (start + offset)) `mod` n) v) vs).
Proof.
  revert start self. induction vs as [|v vs IH]; intros start self Hvs.
  - apply performs_ret.
  - cbn [length seq fmap list_fmap enumerate_from for_each imap].
    apply (performs_bind _ _ _ [_]).
    + pose proof (Hvs 0%nat v eq_refl) as Hv. unfold brightened in Hv.
      rewrite Nat.add_0_r in *.
      destruct (PyFloat.of_int trail) as [t|e]; [|discriminate Hv].
      apply (performs_lift _ _ t); [done|]. simpl in Hv.
      destruct (PyFloat.int_div (Z.of_nat start) t) as [b|e]; [|discriminate Hv].
      apply (performs_lift _ _ b); [done|].
      by apply performs_set_pixel_color.
    + replace (Z.of_nat start + 1) with (Z.of_nat (S start)) by lia.
      erewrite imap_ext; [apply (IH (S start))|].
      * intros offset w Hw. replace (S start + offset)%nat
          with (start + S offset)%nat by lia. by apply Hvs.
      * intros offset w _. simpl. do 3 f_equal. lia.
Qed.

Lemma performs_vapor_trail_step color trail trail_color wait_ms secs vs h self :
  delay_of wait_ms = Ok secs →
  Z.of_nat (length vs) = trail →
  (∀ (offset : nat) v, vs !! offset = Some v →
     brightened color (Z.of_nat offset) trail = Ok v) →
  0 <= h →
  performs (vapor_trail_step color trail trail_color wait_ms h) self
    (vapor_head_events vs trail_color secs (_num_pixels self) h).
Proof.
  intros Hd Hlen Hvs Hh. unfold vapor_trail_step, vapor_head_events.
  apply performs_num_pixels.
  apply performs_bind; [|apply (performs_bind _ _ _ [_] [_; _])].
  - rewrite range_up. replace (h + trail - h) with trail by lia.
    rewrite <- Hlen, Nat2Z.id. unfold enumerate.
    pose proof (performs_trail_loop color (Z.of_nat (length vs)) (_num_pixels self)
                  h (λ i, h + i) vs 0 self) as Hloop.
    simpl in Hloop. rewrite Hlen in *. apply Hloop. done.
  - destruct (Z.leb_spec 0 h); [|lia].
    apply performs_set_pixel_color, alter_brightness_full.
  - by apply performs_show_with_delay.
Qed.

Lemma performs_vapor_trail color trail trail_color wait_ms secs vs self :
  delay_of wait_ms = Ok secs →
  Z.of_nat (length vs) = trail →
  (∀ (offset : nat) v, vs !! offset = Some v →
     brightened color (Z.of_nat offset) trail = Ok v) →
  performs (vapor_trail color trail trail_color wait_ms) self
    (concat (vapor_head_events vs trail_color secs (_num_pixels self)
               <$> range 0 (_num_pixels self) 1)).
Proof.
  intros Hd Hlen Hvs. unfold vapor_trail. apply performs_num_pixels.
  apply (performs_for_each (_num_pixels self)); [|done].
  intros h s Hh <-. apply performs_vapor_trail_step; try done.
  rewrite range_up in Hh. apply list_elem_of_fmap in Hh as (i & -> & _). lia.
Qed.

End VaporTrail.

(** * The claims *)

(** ** Running a method on a fresh controller *)

Section Runs.

Lemma performs_run (m : M ()) self evs :
  performs m self evs →
  (m self).1 = Ok ()
  ∧ trace (m self).2 = trace self ++ evs
  ∧ leds (_strip (m self).2) = replay evs (leds (_strip self))
  ∧ shown (_strip (m self).2)
    = shown (_strip self) ++ frames evs (leds (_strip self)).
Proof.
  unfold performs. intros ->. simpl.
  by rewrite trace_after, leds_after, shown_after.
Qed.

Lemma pass_blocks color secs heads :
  Forall is_frame_block (head_events color secs <$> heads).
Proof.
  apply Forall_fmap, Forall_forall. intros k _. simpl.
  exists (fade_events color k ++ clear_events k), secs.
  split; [unfold head_events; by rewrite <- app_assoc|].
  apply Forall_app. split.
  - unfold fade_events. apply Forall_fmap, Forall_forall. by intros j _.
  - unfold clear_events. destruct (0 <? Z.max (k - 10) 0); repeat constructor.
Qed.






End Runs.

(** ** draw_and_erase *)

Section DrawAndEraseClaims.

Lemma run_draw_and_erase strip draw_color eraser wait_ms secs :
  delay_of wait_ms = Ok secs →
  performs (draw_and_erase draw_color eraser wait_ms) (LightController_init strip)
    (pass_events eraser secs (range 0 (numPixels strip) 1)
     ++ pass_events draw_color secs (range (numPixels strip) 0 (-1))).
Proof. intros Hd. by apply (performs_draw_and_erase _ _ _ _ (LightController_init strip)). Qed.




(** C3: the downward pass of [draw_and_erase] starts at head position [N]:
    on every strip with at least one pixel the call hands the index [N],
    which is outside [0..N-1], to the strip's pixel setter.  (The delay is
    one [time.sleep] accepts, 0 to 9223372036854 ms, so that the call comes
    to its downward pass.) *)
Theorem draw_and_erase_index_out_of_range strip draw_color eraser wait_ms :
  0 <= wait_ms < 9223372036855 → 0 < numPixels strip →
  let r := draw_and_erase draw_color eraser wait_ms (LightController_init strip) in
  r.1 = Ok ()
  ∧ EvSetPixelColor (numPixels strip) (value draw_color) ∈ trace r.2.
Proof.
  intros Hw Hn r. destruct (delay_of_ok wait_ms Hw) as [secs Hd].
  destruct (performs_run _ _ _ (run_draw_and_erase strip draw_color eraser wait_ms secs Hd))
    as (Hok & Htrace & _).
  fold r in Hok, Htrace. split; [done|]. rewrite Htrace.
  apply elem_of_app. right. apply elem_of_app. right.
  rewrite range_down. set (n := numPixels strip) in *.
  destruct (Z.to_nat (n - 0)) as [|m] eqn:Hm; [lia|].
  cbn [seq fmap list_fmap pass_events concat].
  apply elem_of_app. left. unfold head_events. apply elem_of_app. left.
  unfold fade_events.
  destruct (Z.to_nat (n - Z.of_nat 0 - Z.max (n - Z.of_nat 0 - 10) 0)) as [|m'] eqn:Hm';
    [lia|].
  cbn [seq fmap list_fmap]. change (Z.of_nat 0) with 0. rewrite !Z.sub_0_r.
  rewrite tenths_full. left.
Qed.

Lemma draw_and_erase_index_out_of_range_witness :
  0 <= 50 < 9223372036855 ∧ 0 < numPixels (solid_strip 150 0)
  ∧ let r := draw_and_erase CRYSTAL_BLUE WARM_WHITE 50
               (LightController_init (solid_strip 150 0)) in
    r.1 = Ok ()
    ∧ EvSetPixelColor (numPixels (solid_strip 150 0)) (value CRYSTAL_BLUE) ∈ trace r.2.
Proof.
  split; [lia|]. split; [reflexivity|].
  apply (draw_and_erase_index_out_of_range (solid_strip 150 0)); [lia | reflexivity].
Defined.








End DrawAndEraseClaims.

(** ** pulse *)

Section PulseClaims.

Lemma pulse_blocks color secs n levels :
  Forall is_frame_block (pulse_frame_events color secs n <$> levels).
Proof.
  apply Forall_fmap, Forall_forall. intros k _. simpl.
  eexists _, secs. split; [done|].
  apply Forall_fmap, Forall_forall. by intros i _.
Qed.





End PulseClaims.

(** ** The pixel setter and the brightness scaling *)

Section ScaleClaims.

(** C4: [_set_pixel_color] stores [alter_brightness color brightness] into
    slot [index] when the index is on the strip and leaves every slot as it
    was when the index is outside [0, N); when the scaling raises, the call
    fails with that exception and the controller is unchanged. *)
Theorem set_pixel_color_effect self index color brightness :
  let n := numPixels (_strip self) in
  let r := _set_pixel_color index color brightness self in
  match alter_brightness color brightness with
  | Ok v =>
      r.1 = Ok ()
      ∧ (0 <= index < n →
         leds (_strip r.2) = <[Z.to_nat index := v]> (leds (_strip self))
         ∧ leds (_strip r.2) !! Z.to_nat index = Some v)
      ∧ (¬ 0 <= index < n → leds (_strip r.2) = leds (_strip self))
  | Raise e => r = (Raise e, self)
  end.
Proof.
  intros n r. unfold r, _set_pixel_color.
  destruct (alter_brightness color brightness) as [v|e]; [|done].
  simpl. unfold write, n, numPixels. split; [done|]. split.
  - intros Hi. rewrite decide_True by done. split; [done|].
    apply list_lookup_insert_eq. lia.
  - intros Hi. by rewrite decide_False.
Qed.

(** C7, as stated, fails outside the unit interval: at brightness 2.0 the
    result for [WARM_WHITE] is not a 24-bit colour with the floored products
    as channels. *)
Lemma alter_brightness_unclamped_counterexample :
  ¬ ∃ v, alter_brightness WARM_WHITE lit_2_0 = Ok v
         ∧ scale_spec WARM_WHITE lit_2_0 v.
Proof.
  intros (v & Hv & _ & _ & _ & _ & Hlt). vm_compute in Hv. injection Hv as <-.
  vm_compute in Hlt. discriminate Hlt.
Qed.

(** C7, amended: for every colour and every brightness that is a double in
    [0, 1], [alter_brightness] returns a colour whose channels are the floors
    of the double-precision products channel * brightness, in the same 24-bit
    encoding as its input; at brightness 1.0 it returns the colour itself. *)
Theorem alter_brightness_unit color b :
  unit_brightness b →
  (∃ v, alter_brightness color b = Ok v ∧ scale_spec color b v)
  ∧ alter_brightness color PyFloat.lit_1_0 = Ok (value color).
Proof.
  intros Hb. split; [|apply alter_brightness_full].
  destruct (channel_bounds (value color)) as (Hr & Hg & Hbl).
  destruct (scale_channel_unit (red_of (value color)) b) as (r & Hsr & Hfr & Hvr);
    [lia | done |].
  destruct (scale_channel_unit (green_of (value color)) b) as (g & Hsg & Hfg & Hvg);
    [lia | done |].
  destruct (scale_channel_unit (blue_of (value color)) b) as (bl & Hsb & Hfb & Hvb);
    [lia | done |].
  exists (Color r g bl). unfold alter_brightness. rewrite Hsr, Hsg, Hsb.
  split; [done|].
  destruct (Color_channels r g bl) as (Hcr & Hcg & Hcb & Hrange); try lia.
  unfold scale_spec. by rewrite Hcr, Hcg, Hcb.
Qed.

Lemma alter_brightness_unit_witness :
  unit_brightness PyFloat.lit_0_4
  ∧ (∃ v, alter_brightness WARM_WHITE PyFloat.lit_0_4 = Ok v
          ∧ scale_spec WARM_WHITE PyFloat.lit_0_4 v)
  ∧ alter_brightness WARM_WHITE PyFloat.lit_1_0 = Ok (value WARM_WHITE).
Proof.
  split; [repeat split; reflexivity|].
  apply (alter_brightness_unit WARM_WHITE PyFloat.lit_0_4).
  repeat split; reflexivity.
Defined.

End ScaleClaims.

(** ** christmas_colors *)

Section ChristmasClaims.

Lemma christmas_writes_are_writes m : Forall is_write (christmas_writes m).
Proof.
  unfold christmas_writes. induction (seq 0 m) as [|j js IH]; simpl; [constructor|].
  repeat constructor. done.
Qed.





End ChristmasClaims.

(** ** vapor_trail *)

Section VaporTrailClaims.


Lemma imap_sets (g : nat → Z) (vs : list Z) :
  imap (λ (offset : nat) v, EvSetPixelColor (g offset) v) vs
  = (λ offset : nat, EvSetPixelColor (g offset) (default 0 (vs !! offset)))
      <$> seq 0 (length vs).
Proof.
  apply list_eq. intros i. rewrite list_lookup_imap, list_lookup_fmap.
  destruct (vs !! i) as [v|] eqn:Hv.
  - rewrite lookup_seq_lt by (by apply lookup_lt_Some in Hv). simpl.
    by rewrite Hv.
  - rewrite lookup_seq_ge by (by apply lookup_ge_None in Hv). done.
Qed.

Lemma vapor_blocks vs trail_color secs n heads :
  Forall is_frame_block (vapor_head_events vs trail_color secs n <$> heads).
Proof.
  apply Forall_fmap, Forall_forall. intros h _. simpl.
  eexists (_ ++ [_]), secs. split.
  - unfold vapor_head_events. by rewrite <- app_assoc.
  - apply Forall_app. split; [|repeat constructor].
    rewrite imap_sets. apply Forall_fmap, Forall_forall. by intros i _.
Qed.





End VaporTrailClaims.

(** * Further properties of the patterns *)

(** ** single_color and alternating_colors *)

Section FillPatterns.

(** [range(0, n, step)] for a positive step. *)
Lemma range_0_step (n step : Z) :
  0 < step →
  range 0 n step
  = (λ i : nat, step * Z.of_nat i) <$> seq 0 (Z.to_nat ((n + step - 1) / step)).
Proof.
  intros Hstep. unfold range.
  destruct (Z.ltb_spec 0 step) as [_|]; [|lia].
  assert ((if 0 <? n then (n - 0 - 1) / step + 1 else 0) = (n + step - 1) / step
          ∨ (n <= 0 ∧ (n + step - 1) / step <= 0)) as Hlen.
  { destruct (Z.ltb_spec 0 n) as [Hn|Hn].
    - left. replace (n + step - 1) with (n - 0 - 1 + 1 * step) by lia.
      by rewrite Z.div_add by lia.
    - right. split; [done|].
      assert ((n + step - 1) / step < 1); [|lia].
      apply Z.div_lt_upper_bound; lia. }
  destruct Hlen as [->|[Hn Hle]].
  - apply list_fmap_ext. intros _ i _. lia.
  - destruct (Z.ltb_spec 0 n); [lia|].
    replace (Z.to_nat ((n + step - 1) / step)) with 0%nat by lia. done.
Qed.


Lemma well_formed_init strip : well_formed (LightController_init strip).
Proof. done. Qed.


Lemma performs_single_color color wait_ms secs self :
  delay_of wait_ms = Ok secs →
  performs (single_color color wait_ms) self
    (solid_frame_events (value color) secs (_num_pixels self)).
Proof.
  intros Hd. unfold single_color, solid_frame_events. apply performs_num_pixels.
  apply performs_bind; [|by apply performs_show_with_delay].
  rewrite range_up, Z.sub_0_r.
  rewrite <- (concat_fmap_singleton
                (λ i : nat, EvSetPixelColor (Z.of_nat i) (value color))).
  apply (performs_for_each_fmap (_num_pixels self)); [|done].
  intros i s _ _. simpl. apply performs_set_pixel_color, alter_brightness_full.
Qed.







End FillPatterns.

Section Alternating.

(** The pixel writes of [alternating_colors], before its flush. *)
Lemma performs_alternating_writes first second self :
  performs
    (for_each (range 0 (_num_pixels self) 2)
       (λ i, _set_pixel_color i first PyFloat.lit_1_0 ;;
             _set_pixel_color (i + 1) second PyFloat.lit_1_0))
    self
    (alternating_writes first second (Z.to_nat ((_num_pixels self + 2 - 1) / 2))).
Proof.
  rewrite range_0_step by lia. unfold alternating_writes.
  apply (performs_for_each_fmap (_num_pixels self)); [|done].
  intros j s _ _.
  apply (performs_bind _ _ _ [_] [_]);
    apply performs_set_pixel_color, alter_brightness_full.
Qed.

Lemma performs_alternating_colors first second wait_ms secs self :
  delay_of wait_ms = Ok secs →
  performs (alternating_colors first second wait_ms) self
    (alternating_writes first second (Z.to_nat ((_num_pixels self + 2 - 1) / 2))
     ++ [EvShow; EvSleep secs]).
Proof.
  intros Hd. unfold alternating_colors. apply performs_num_pixels.
  apply performs_bind; [|by apply performs_show_with_delay].
  apply performs_alternating_writes.
Qed.

(** Whatever the delay, also one that [time.sleep] refuses, the calls of
    [alternating_colors] are its pixel writes, the flush, and at most the
    delay after it. *)
Lemma trace_alternating_colors first second wait_ms self :
  ∃ tail,
    trace (alternating_colors first second wait_ms self).2
    = trace self
      ++ alternating_writes first second (Z.to_nat ((_num_pixels self + 2 - 1) / 2))
      ++ EvShow :: tail
    ∧ Forall (λ ev, ∃ secs, ev = EvSleep secs) tail.
Proof.
  pose proof (performs_alternating_writes first second self) as Hw.
  unfold performs in Hw.
  destruct (trace_show_with_delay wait_ms
              (after (alternating_writes first second
                        (Z.to_nat ((_num_pixels self + 2 - 1) / 2))) self))
    as (tail & Htrace & Htail).
  exists tail. split; [|done].
  change (alternating_colors first second wait_ms self)
    with (match for_each (range 0 (_num_pixels self) 2)
                  (λ i, _set_pixel_color i first PyFloat.lit_1_0 ;;
                        _set_pixel_color (i + 1) second PyFloat.lit_1_0) self with
          | (Ok _, self') => _show_with_delay wait_ms self'
          | (Raise e, self') => (Raise e, self')
          end).
  rewrite Hw, Htrace, trace_after. by rewrite <- app_assoc.
Qed.

Lemma alternating_writes_are_writes first second m :
  Forall is_write (alternating_writes first second m).
Proof.
  unfold alternating_writes. induction (seq 0 m) as [|j js IH]; simpl; [constructor|].
  repeat constructor. done.
Qed.





(** The indices [alternating_colors] hands to the pixel setter: all of them
    lie on the strip when the pixel count is even; when it is odd, the last
    pair reaches one past the end and the setter is called with index [N]. *)
Theorem alternating_colors_indices strip first second wait_ms :
  0 <= wait_ms < 2 ^ 53 →
  let n := numPixels strip in
  let r := alternating_colors first second wait_ms (LightController_init strip) in
  (Z.even n = true → Forall (on_strip n) (trace r.2))
  ∧ (Z.odd n = true → EvSetPixelColor n (value second) ∈ trace r.2).
Proof.
  intros _ n r.
  destruct (trace_alternating_colors first second wait_ms (LightController_init strip))
    as (tail & Htrace & Htail).
  fold r in Htrace.
  change (_num_pixels (LightController_init strip)) with n in *.
  change (trace (LightController_init strip)) with [EvBegin] in *.
  rewrite Htrace. unfold alternating_writes.
  assert (0 <= n) as Hn0 by (unfold n, numPixels; lia).
  split.
  - intros Heven. apply Zeven_bool_iff, Zeven_ex_iff in Heven as [q Hq].
    constructor; [done|]. apply Forall_app. split.
    + apply Forall_concat, Forall_fmap, Forall_forall.
      intros j Hj. apply elem_of_seq in Hj.
      assert ((n + 2 - 1) / 2 = q) as Hdiv.
      { rewrite Hq. replace (2 * q + 2 - 1) with (1 + q * 2) by lia.
        rewrite Z.div_add by lia. done. }
      rewrite Hdiv in Hj.
      constructor; [simpl; lia|]. constructor; [simpl; lia|]. constructor.
    + constructor; [done|]. eapply Forall_impl; [exact Htail|].
      by intros ev [secs ->].
  - intros Hodd. apply Zodd_bool_iff, Zodd_ex_iff in Hodd as [q Hq].
    apply elem_of_cons. right. apply elem_of_app. left.
    assert ((n + 2 - 1) / 2 = q + 1) as Hdiv.
    { rewrite Hq. replace (2 * q + 1 + 2 - 1) with ((q + 1) * 2) by lia.
      apply Z.div_mul. lia. }
    replace (Z.to_nat ((n + 2 - 1) / 2)) with (S (Z.to_nat q)) by lia.
    rewrite seq_S, fmap_app, concat_app. apply elem_of_app. right.
    simpl. apply elem_of_cons. right. apply elem_of_cons. left. f_equal. lia.
Qed.

Lemma alternating_colors_indices_witness :
  0 <= 50 < 2 ^ 53
  ∧ let n := numPixels (solid_strip 7 0) in
    let r := alternating_colors CRYSTAL_BLUE PURE_WHITE 50
               (LightController_init (solid_strip 7 0)) in
    (Z.even n = true → Forall (on_strip n) (trace r.2))
    ∧ (Z.odd n = true → EvSetPixelColor n (value PURE_WHITE) ∈ trace r.2).
Proof.
  split; [lia|].
  apply (alternating_colors_indices (solid_strip 7 0) CRYSTAL_BLUE PURE_WHITE 50). lia.
Defined.

End Alternating.

(** ** What draw_and_erase leaves behind *)

Section DrawAndEraseResult.






End DrawAndEraseResult.

(** ** What vapor_trail and candy_cane leave behind *)

Section VaporTrailResult.






End VaporTrailResult.

Section CandyCane.






Lemma performs_candy_cane wait_ms secs vs self :
  delay_of wait_ms = Ok secs →
  Z.of_nat (length vs) = 10 →
  (∀ (offset : nat) v, vs !! offset = Some v →
     brightened CRYSTAL_RED (Z.of_nat offset) 10 = Ok v) →
  performs (candy_cane wait_ms) self
    (solid_frame_events (value PURE_WHITE) secs (_num_pixels self)
     ++ concat (vapor_head_events vs PURE_WHITE secs (_num_pixels self)
                  <$> range 0 (_num_pixels self) 1)).
Proof.
  intros Hd Hlen Hvs. unfold candy_cane. apply performs_num_pixels.
  unfold solid_frame_events. rewrite <- app_assoc.
  apply performs_bind; [|apply performs_bind].
  - rewrite range_up, Z.sub_0_r.
    rewrite <- (concat_fmap_singleton
                  (λ i : nat, EvSetPixelColor (Z.of_nat i) (value PURE_WHITE))).
    apply (performs_for_each_fmap (_num_pixels self)); [|done].
    intros i s _ _. simpl. apply performs_set_pixel_color, alter_brightness_full.
  - by apply performs_show_with_delay.
  - pose proof (performs_vapor_trail CRYSTAL_RED 10 PURE_WHITE wait_ms secs vs
                  (after [EvShow; EvSleep secs]
                     (after ((λ i : nat, EvSetPixelColor (Z.of_nat i) (value PURE_WHITE))
                               <$> seq 0 (Z.to_nat (_num_pixels self))) self))
                  Hd Hlen Hvs) as Hv.
    by rewrite !num_pixels_after in Hv.
Qed.



End CandyCane.

(** ** pulse_between: pulses in sequence *)

Section PulseBetween.







End PulseBetween.

(** ** Brightness scaling: bounds and failures *)

Section ScalingEdges.

(** Scaling by a brightness in the unit interval never brightens: every
    channel of the result lies between 0 and the channel of the input colour;
    a zero brightness gives black. *)
Theorem alter_brightness_dims color b :
  unit_brightness b →
  (∃ v, alter_brightness color b = Ok v
        ∧ 0 <= red_of v <= red_of (value color)
        ∧ 0 <= green_of v <= green_of (value color)
        ∧ 0 <= blue_of v <= blue_of (value color))
  ∧ ∀ s, alter_brightness color (S754_zero s) = Ok (value NONE).
Proof.
  intros Hb. split; [|by intros s; destruct color, s].
  destruct (channel_bounds (value color)) as (Hr & Hg & Hbl).
  destruct (scale_channel_unit (red_of (value color)) b) as (r & Hsr & _ & Hvr);
    [lia | done |].
  destruct (scale_channel_unit (green_of (value color)) b) as (g & Hsg & _ & Hvg);
    [lia | done |].
  destruct (scale_channel_unit (blue_of (value color)) b) as (bl & Hsb & _ & Hvb);
    [lia | done |].
  exists (Color r g bl). unfold alter_brightness. rewrite Hsr, Hsg, Hsb.
  split; [done|].
  destruct (Color_channels r g bl) as (Hcr & Hcg & Hcb & _); [lia | lia | lia |].
  rewrite Hcr, Hcg, Hcb. lia.
Qed.

Lemma alter_brightness_dims_witness :
  unit_brightness PyFloat.lit_0_4
  ∧ (∃ v, alter_brightness CRYSTAL_BLUE PyFloat.lit_0_4 = Ok v
          ∧ 0 <= red_of v <= red_of (value CRYSTAL_BLUE)
          ∧ 0 <= green_of v <= green_of (value CRYSTAL_BLUE)
          ∧ 0 <= blue_of v <= blue_of (value CRYSTAL_BLUE))
  ∧ ∀ s, alter_brightness CRYSTAL_BLUE (S754_zero s) = Ok (value NONE).
Proof.
  split; [repeat split; reflexivity|].
  apply (alter_brightness_dims CRYSTAL_BLUE PyFloat.lit_0_4).
  repeat split; reflexivity.
Defined.

(** A brightness that is not a number makes [alter_brightness] raise
    [ValueError]; an infinite brightness makes it raise too, on the first
    channel it converts: [OverflowError] when the red channel is not zero,
    [ValueError] (from [0 * inf]) when it is. *)
Theorem alter_brightness_not_finite color :
  alter_brightness color S754_nan = Raise ValueError
  ∧ ∀ s, alter_brightness color (S754_infinity s)
         = Raise (if decide (red_of (value color) = 0)
                  then ValueError else OverflowError).
Proof. split; [|intros s]; by destruct color. Qed.

End ScalingEdges.

(** ** One turn of Run *)

Section RunCycle.

Lemma length_frames evs buf : length (frames evs buf) = flushes evs.
Proof.
  revert buf. induction evs as [|ev evs IH]; intros buf; [done|].
  destruct ev; simpl; by rewrite ?IH.
Qed.

Lemma flushes_app evs1 evs2 : flushes (evs1 ++ evs2) = (flushes evs1 + flushes evs2)%nat.
Proof.
  induction evs1 as [|ev evs1 IH]; [done|]. destruct ev; simpl; by rewrite IH.
Qed.

Lemma flushes_blocks blocks :
  Forall is_frame_block blocks → flushes (concat blocks) = length blocks.
Proof.
  intros Hb. rewrite <- (length_frames _ []). by apply length_frames_blocks.
Qed.

Lemma flushes_writes writes : Forall is_write writes → flushes writes = 0%nat.
Proof. intros Hw. rewrite <- (length_frames _ []). by rewrite frames_writes. Qed.

Lemma flushing_bind (m k : M ()) c1 c2 :
  flushing m c1 → flushing k c2 → flushing (m ;; k) (λ n, (c1 n + c2 n)%nat).
Proof.
  intros Hm Hk self. destruct (Hm self) as (evs1 & Hrun1 & Hc1).
  destruct (Hk (after evs1 self)) as (evs2 & Hrun2 & Hc2).
  exists (evs1 ++ evs2). split; [by apply performs_bind|].
  rewrite flushes_app, Hc1, Hc2. by rewrite num_pixels_after.
Qed.

Lemma flushing_for_each {A} (xs : list A) (body : A → M ()) c :
  (∀ x, x ∈ xs → flushing (body x) c) →
  flushing (for_each xs body) (λ n, (length xs * c n)%nat).
Proof.
  induction xs as [|x xs IH]; intros Hbody.
  - intros self. exists []. split; [apply performs_ret | done].
  - intros self.
    destruct (flushing_bind (body x) (for_each xs body) c
                (λ n, (length xs * c n)%nat)) with self as (evs & Hrun & Hc).
    + apply Hbody. left.
    + apply IH. intros y Hy. apply Hbody. by right.
    + exists evs. split; [done|]. rewrite Hc. simpl. lia.
Qed.

Lemma flushing_ext (m : M ()) c1 c2 :
  (∀ n, c1 n = c2 n) → flushing m c1 → flushing m c2.
Proof.
  intros Heq Hm self. destruct (Hm self) as (evs & Hrun & Hc).
  exists evs. split; [done|]. by rewrite <- Heq.
Qed.

Lemma performs_christmas_colors_any wait_ms secs self :
  delay_of wait_ms = Ok secs →
  performs (christmas_colors wait_ms) self
    (christmas_writes (Z.to_nat ((_num_pixels self + 3 - 1) / 3))
     ++ [EvShow; EvSleep secs; EvShow; EvSleep secs]).
Proof.
  intros Hd. unfold christmas_colors. apply performs_num_pixels.
  destruct christmas_values as (Hw & Hr & Hg).
  apply performs_bind.
  - rewrite range_0_step by lia. unfold christmas_writes.
    apply (performs_for_each_fmap (_num_pixels self)); [|done].
    intros j s _ _.
    apply (performs_bind _ _ _ [_] [_; _]);
      [by apply performs_set_pixel_color|].
    apply (performs_bind _ _ _ [_] [_]); by apply performs_set_pixel_color.
  - apply (performs_bind _ _ _ [_; _] [_; _]); by apply performs_show_with_delay.
Qed.

Lemma flushes_solid_frame v secs n : flushes (solid_frame_events v secs n) = 1%nat.
Proof.
  unfold solid_frame_events. rewrite flushes_app, flushes_writes; [done|].
  apply Forall_fmap, Forall_forall. by intros i _.
Qed.

Lemma flushing_single_color color wait_ms :
  0 <= wait_ms < 9223372036855 → flushing (single_color color wait_ms) (λ _, 1%nat).
Proof.
  intros Hw self. destruct (delay_of_ok wait_ms Hw) as [secs Hd].
  eexists. split; [by apply performs_single_color|]. apply flushes_solid_frame.
Qed.

Lemma flushing_alternating_colors first second wait_ms :
  0 <= wait_ms < 9223372036855 →
  flushing (alternating_colors first second wait_ms) (λ _, 1%nat).
Proof.
  intros Hw self. destruct (delay_of_ok wait_ms Hw) as [secs Hd].
  eexists. split; [by apply performs_alternating_colors|].
  rewrite flushes_app, flushes_writes by apply alternating_writes_are_writes. done.
Qed.

Lemma flushing_pulse color wait_ms :
  0 <= wait_ms < 9223372036855 → flushing (pulse color wait_ms) (λ _, 18%nat).
Proof.
  intros Hw self. destruct (delay_of_ok wait_ms Hw) as [secs Hd].
  eexists. split; [by apply performs_pulse|].
  rewrite flushes_blocks by apply pulse_blocks. by rewrite length_fmap.
Qed.

Lemma flushing_christmas_colors wait_ms :
  0 <= wait_ms < 9223372036855 → flushing (christmas_colors wait_ms) (λ _, 2%nat).
Proof.
  intros Hw self. destruct (delay_of_ok wait_ms Hw) as [secs Hd].
  eexists. split; [by apply performs_christmas_colors_any|].
  rewrite flushes_app, flushes_writes by apply christmas_writes_are_writes. done.
Qed.

Lemma flushing_draw_and_erase draw_color eraser wait_ms :
  0 <= wait_ms < 9223372036855 →
  flushing (draw_and_erase draw_color eraser wait_ms) (λ n, (2 * Z.to_nat n)%nat).
Proof.
  intros Hw self. destruct (delay_of_ok wait_ms Hw) as [secs Hd].
  eexists. split; [by apply performs_draw_and_erase|].
  unfold pass_events. rewrite flushes_app, !flushes_blocks by apply pass_blocks.
  rewrite !length_fmap, range_up, range_down, !length_fmap, !length_seq. lia.
Qed.

Lemma flushing_vapor_trail color trail trail_color wait_ms :
  0 <= wait_ms < 9223372036855 → 0 <= trail < 2 ^ 53 →
  flushing (vapor_trail color trail trail_color wait_ms) (λ n, Z.to_nat n).
Proof.
  intros Hw Ht self. destruct (delay_of_ok wait_ms Hw) as [secs Hd].
  destruct (trail_values_exist color trail Ht) as (vs & Hlen & Hvs).
  eexists. split; [by apply (performs_vapor_trail _ _ _ _ secs vs)|].
  rewrite flushes_blocks by apply vapor_blocks.
  rewrite length_fmap, range_up, length_fmap, length_seq. lia.
Qed.

Lemma flushing_candy_cane wait_ms :
  0 <= wait_ms < 9223372036855 → flushing (candy_cane wait_ms) (λ n, (1 + Z.to_nat n)%nat).
Proof.
  intros Hw self. destruct (delay_of_ok wait_ms Hw) as [secs Hd].
  destruct (trail_values_exist CRYSTAL_RED 10 ltac:(lia)) as (vs & Hlen & Hvs).
  eexists. split; [by apply (performs_candy_cane _ secs vs)|].
  rewrite flushes_app, flushes_solid_frame, flushes_blocks by apply vapor_blocks.
  rewrite length_fmap, range_up, length_fmap, length_seq. lia.
Qed.

Lemma flushing_Run_cycle :
  flushing Run_cycle (λ n, (113 + 13 * Z.to_nat n)%nat).
Proof.
  assert (0 <= 50 < 9223372036855) as H50 by lia.
  assert (0 <= 75 < 9223372036855) as H75 by lia.
  assert (0 <= 20 < 2 ^ 53) as H20 by lia.
  unfold Run_cycle, pulse_between.
  eapply flushing_ext; [|
    apply flushing_bind; [by apply flushing_single_color|];
    apply flushing_bind; [by apply flushing_alternating_colors|];
    apply flushing_bind;
      [apply flushing_for_each; intros x _; by apply flushing_pulse|];
    apply flushing_bind;
      [apply flushing_for_each; intros x _; by apply flushing_pulse|];
    apply flushing_bind; [by apply flushing_christmas_colors|];
    apply flushing_bind; [by apply flushing_candy_cane|];
    apply flushing_bind;
      [apply flushing_for_each; intros x _; by apply flushing_draw_and_erase|];
    apply flushing_for_each; intros x _; by apply flushing_vapor_trail].
  intros n. simpl. lia.
Qed.

(** One turn of the loop of [Run] never raises: on every strip it runs all
    the patterns to the end, and it flushes [113 + 13 * N] frames. *)
Theorem Run_cycle_returns strip :
  let r := Run_cycle (LightController_init strip) in
  r.1 = Ok ()
  ∧ length (shown (_strip r.2))
    = (length (shown strip) + 113 + 13 * length (leds strip))%nat.
Proof.
  intros r.
  destruct (flushing_Run_cycle (LightController_init strip)) as (evs & Hrun & Hc).
  destruct (performs_run _ _ _ Hrun) as (Hok & _ & _ & Hshown).
  fold r in Hok, Hshown. split; [done|].
  rewrite Hshown, length_app, length_frames, Hc. simpl. unfold numPixels. lia.
Qed.

End RunCycle.
(** ** A delay that [time.sleep] refuses *)

Section RefusedDelay.

Lemma show_with_delay_raises wait_ms err self :
  delay_of wait_ms = Raise err →
  _show_with_delay wait_ms self = (Raise err, step_state EvShow self).
Proof.
  intros Hd. unfold delay_of in Hd. unfold _show_with_delay, time_sleep.
  unfold mbind, M_bind, perform, lift. simpl fst. simpl snd.
  destruct (PyFloat.int_div wait_ms PyFloat.lit_1000_0) as [secs|err'];
    simpl in Hd |- *; [|by inversion Hd].
  destruct (sleep_error secs) as [err'|]; [by inversion Hd | discriminate Hd].
Qed.

(** [_show_with_delay] with a negative delay down to -9223372036854 ms: the
    strip is flushed, then [time.sleep] refuses the delay for its sign, so
    the call raises [ValueError] with the frame already shown. *)
Theorem show_with_negative_delay self wait_ms :
  -9223372036855 < wait_ms < 0 →
  _show_with_delay wait_ms self = (Raise ValueError, step_state EvShow self).
Proof. intros Hw. by apply show_with_delay_raises, delay_of_negative. Qed.

Lemma show_with_negative_delay_witness :
  -9223372036855 < -50 < 0
  ∧ _show_with_delay (-50) (LightController_init (solid_strip 3 0))
    = (Raise ValueError, step_state EvShow (LightController_init (solid_strip 3 0))).
Proof.
  split; [lia|].
  apply (show_with_negative_delay (LightController_init (solid_strip 3 0)) (-50)). lia.
Defined.

(** [_show_with_delay] with a delay of 9223372036855 ms or more, of either
    sign (and below [2 ^ 53] ms, up to where [wait_ms] converts to a double
    exactly): the strip is flushed, then [time.sleep] refuses the delay
    because its nanoseconds do not fit 64 bits, so the call raises
    [OverflowError] with the frame already shown. *)
Theorem show_with_overlong_delay self wait_ms :
  9223372036855 <= Z.abs wait_ms < 2 ^ 53 →
  _show_with_delay wait_ms self = (Raise OverflowError, step_state EvShow self).
Proof. intros Hw. by apply show_with_delay_raises, delay_of_beyond. Qed.

Lemma show_with_overlong_delay_witness :
  9223372036855 <= Z.abs 9223372036855 < 2 ^ 53
  ∧ _show_with_delay 9223372036855 (LightController_init (solid_strip 3 0))
    = (Raise OverflowError, step_state EvShow (LightController_init (solid_strip 3 0))).
Proof.
  assert (9223372036855 <= Z.abs 9223372036855 < 2 ^ 53) as Hw
    by (vm_compute; split; [discriminate | reflexivity]).
  split; [exact Hw|].
  apply (show_with_overlong_delay (LightController_init (solid_strip 3 0))
           9223372036855 Hw).
Defined.

Lemma bind_raises (m k : M ()) err self self' :
  m self = (Raise err, self') → (m ;; k) self = (Raise err, self').
Proof. intros H. unfold mbind, M_bind. by rewrite H. Qed.

(** [draw_and_erase] with such a delay stops at its first flush: the head at
    position 0 has no pixel to store into, the strip is flushed as it was,
    and [time.sleep] raises [OverflowError]; the call has made no other call
    on the strip. *)
Theorem draw_and_erase_overlong_delay strip draw_color eraser wait_ms :
  9223372036855 <= Z.abs wait_ms < 2 ^ 53 → 0 < numPixels strip →
  let r := draw_and_erase draw_color eraser wait_ms (LightController_init strip) in
  r.1 = Raise OverflowError
  ∧ trace r.2 = [EvBegin; EvShow]
  ∧ leds (_strip r.2) = leds strip
  ∧ shown (_strip r.2) = shown strip ++ [leds strip].
Proof.
  intros Hw Hn r.
  assert (r = (Raise OverflowError, step_state EvShow (LightController_init strip)))
    as ->; [|done].
  unfold r, draw_and_erase.
  change ((n ← num_pixels; for_each (enumerate [range 0 n 1; range n 0 (-1)])
             (λ '(range_idx, pixel_range),
                let color := if decide (range_idx ≠ 0) then draw_color else eraser in
                for_each pixel_range (draw_and_erase_step color wait_ms)))
            (LightController_init strip))
    with ((for_each (range 0 (numPixels strip) 1) (draw_and_erase_step eraser wait_ms) ;;
           (for_each (range (numPixels strip) 0 (-1))
              (draw_and_erase_step draw_color wait_ms) ;; mret ()))
            (LightController_init strip)).
  apply bind_raises.
  change (for_each (range 0 (numPixels strip) 1) (draw_and_erase_step eraser wait_ms)
            (LightController_init strip)
          = (Raise OverflowError, step_state EvShow (LightController_init strip))).
  rewrite range_up, Z.sub_0_r.
  destruct (Z.to_nat (numPixels strip)) as [|m] eqn:Hm; [lia|].
  cbn [seq fmap list_fmap for_each]. apply bind_raises.
  unfold draw_and_erase_step. change (0 + Z.of_nat 0) with 0.
  change (Z.max (0 - 10) 0) with 0. change (range 0 0 (-1)) with (@nil Z).
  cbn [enumerate enumerate_from for_each Z.ltb Z.compare].
  change ((mret () ;; (mret () ;; _show_with_delay wait_ms)) (LightController_init strip))
    with (_show_with_delay wait_ms (LightController_init strip)).
  by apply show_with_delay_raises, delay_of_beyond.
Qed.

Lemma draw_and_erase_overlong_delay_witness :
  9223372036855 <= Z.abs 10000000000000 < 2 ^ 53
  ∧ 0 < numPixels (solid_strip 150 0)
  ∧ let r := draw_and_erase CRYSTAL_BLUE WARM_WHITE 10000000000000
               (LightController_init (solid_strip 150 0)) in
    r.1 = Raise OverflowError
    ∧ trace r.2 = [EvBegin; EvShow]
    ∧ leds (_strip r.2) = leds (solid_strip 150 0)
    ∧ shown (_strip r.2) = shown (solid_strip 150 0) ++ [leds (solid_strip 150 0)].
Proof.
  assert (9223372036855 <= Z.abs 10000000000000 < 2 ^ 53) as Hw
    by (vm_compute; split; [discriminate | reflexivity]).
  split; [exact Hw|]. split; [reflexivity|].
  apply (draw_and_erase_overlong_delay (solid_strip 150 0) CRYSTAL_BLUE WARM_WHITE
           10000000000000 Hw).
  reflexivity.
Defined.

End RefusedDelay.

(** ** christmas_colors on a strip of any length *)

Section ChristmasAnyLength.



End ChristmasAnyLength.
(** ** What a flush shows *)

Section FlushClaims.

(** *** Flushes in a run of frames *)










(** *** The patterns that store into every pixel before each flush *)












(** *** vapor_trail: the window, the pixels behind it and those ahead *)






(** *** draw_and_erase: the window, the pixels cleared behind it and those
    not reached *)



(** *** Every pattern *)





End FlushClaims.

